(** * create-service-push: the plugin's entry point and service orchestrator

    A shallow embedding of [create-services-plugin.go].  The plugin talks to
    the platform through the [plugin.CliConnection] interface and to the
    operating system through [os]; both are kept abstract (type classes over
    an arbitrary world state), every call and every line written to standard
    output is recorded in a log, and the unbounded polling loop of
    [createService] runs on fuel. *)

From Stdlib Require Import String List Bool Arith Lia ZArith.
Import ListNotations.
Open Scope string_scope.

Set Implicit Arguments.

(** ** Go values *)

(** A Go [error] value: its message ([Error()]) and whether [os.IsNotExist]
    recognises it.  The nil error is [None] of [option error]. *)
Record error : Type := mkError { Error : string; not_exist : bool }.

(** [os.IsNotExist(err)]; false on the nil error. *)
Definition os_IsNotExist (err : option error) : bool :=
  match err with
  | Some e => not_exist e
  | None => false
  end.

(** [fmt.Errorf] with an already formatted message. *)
Definition fmt_Errorf (msg : string) : error := mkError msg false.

(** The line feed that ends every [Printf] format of the plugin. *)
Definition nl : string := String (Ascii.ascii_of_nat 10) EmptyString.

(** [strings.Join(l, sep)]. *)
Definition strings_Join (l : list string) (sep : string) : string :=
  String.concat sep l.

(** What the verb [%s] prints for a [[]string]. *)
Definition fmt_slice (l : list string) : string :=
  "[" ++ strings_Join l " " ++ "]".

(** The fields of [plugin_models.GetServices_Model] and
    [plugin_models.GetService_Model] that the plugin reads. *)
Record GetServices_Model : Type := mkGetServices_Model { Name : string }.

Record LastOperationFields : Type :=
  mkLastOperation { Description : string; State : string }.

Record GetService_Model : Type :=
  mkGetService_Model { Guid : string; LastOperation : LastOperationFields }.

(** Modelled from the spec: the [Manifest] type of the manifest file's model
    (its declaration is not part of the plugin's main file): an ordered
    sequence of service entries, each with a name, a broker, a plan and an
    optional parameter blob already flattened to a string. *)
Record ServiceSpec : Type := mkServiceSpec {
  ServiceName : string;
  Broker : string;
  PlanName : string;
  JSONParameters : string
}.

Record Manifest : Type := mkManifest { Services : list ServiceSpec }.

(** A run-time panic of the Go runtime. *)
Inductive Panic : Type :=
| IndexOutOfRange (index length : nat).

(** ** The outside world *)

(** [plugin.CliConnection], restricted to the three methods the plugin
    calls.  Each call may change the world. *)
Class CliConnection (World : Type) : Type := {
  CliCommand : list string -> World -> (list string * option error) * World;
  GetServices : World -> (list GetServices_Model * option error) * World;
  GetService : string -> World -> (GetService_Model * option error) * World
}.

(** The parts of package [os] the plugin uses; [File] stands for [*os.File]. *)
Class OS (World File : Type) : Type := {
  os_Stat : string -> World -> option error * World;
  os_Open : string -> World -> (File * option error) * World;
  os_Getenv : string -> World -> string
}.

(** Everything observable a run does, in order, with what came back. *)
Inductive Event : Type :=
| Stdout (text : string)
| ProgressNext (label : string)
| OsStat (name : string) (err : option error)
| OsOpen (name : string) (err : option error)
| Parsed (manifest : Manifest) (err : option error)
| ApiGetServices (s : list GetServices_Model) (err : option error)
| ApiGetService (name : string) (service : GetService_Model) (err : option error)
| ApiCliCommand (args : list string) (output : list string) (err : option error).

(** How a computation ends: it returns, the process exits ([os.Exit]), the
    runtime panics, or the fuel of a polling loop is used up. *)
Inductive Outcome (A : Type) : Type :=
| Returned (a : A)
| Exited (code : Z)
| Panicked (p : Panic)
| OutOfFuel.

Arguments Exited {A} code.
Arguments Panicked {A} p.
Arguments OutOfFuel {A}.

Module Effects.
Section Monad.
Context {World : Type}.

Record Res (A : Type) : Type :=
  mkRes { out : Outcome A; log : list Event; final : World }.

Definition M (A : Type) : Type := World -> Res A.

Definition ret {A} (a : A) : M A := fun w => mkRes (Returned a) [] w.

Definition bind {A B} (m : M A) (f : A -> M B) : M B :=
  fun w =>
    let r := m w in
    match out r with
    | Returned a =>
        let r' := f a (final r) in
        mkRes (out r') (log r ++ log r') (final r')
    | Exited c => mkRes (Exited c) (log r) (final r)
    | Panicked p => mkRes (Panicked p) (log r) (final r)
    | OutOfFuel => mkRes OutOfFuel (log r) (final r)
    end.

Definition emit (e : Event) : M unit := fun w => mkRes (Returned tt) [e] w.
Definition os_Exit {A} (code : Z) : M A := fun w => mkRes (Exited code) [] w.
Definition panic {A} (p : Panic) : M A := fun w => mkRes (Panicked p) [] w.
Definition out_of_fuel {A} : M A := fun w => mkRes OutOfFuel [] w.

(** A call into the world, logged with its answer. *)
Definition call {A} (f : World -> A * World) (ev : A -> Event) : M A :=
  fun w => let (a, w') := f w in mkRes (Returned a) [ev a] w'.

(** A read of the world that leaves no trace. *)
Definition peek {A} (f : World -> A) : M A :=
  fun w => mkRes (Returned (f w)) [] w.

(** [fmt.Printf] with the text already formatted. *)
Definition fmt_Printf (text : string) : M unit := emit (Stdout text).
End Monad.
End Effects.
Import Effects.

Declare Scope go_scope.
Delimit Scope go_scope with go.
Notation "x <- m ;; k" := (bind m (fun x => k))
  (at level 100, m at next level, right associativity) : go_scope.
Notation "' p <- m ;; k" := (bind m (fun x => let p := x in k))
  (at level 100, p pattern, m at next level, right associativity) : go_scope.
Notation "m ;; k" := (bind m (fun _ => k))
  (at level 100, right associativity) : go_scope.
Open Scope go_scope.

(** ** The flag scan of [Run] *)

(** The first loop of [Run]: [for i, arg := range args], with [rest] the
    elements from index [i] on.  [args[i+1]] is read from the whole slice. *)
Fixpoint scanManifest (args : list string) (i : nat) (rest : list string)
    (manifestFilename : string) : string + Panic :=
  match rest with
  | [] => inl manifestFilename
  | arg :: rest' =>
      if arg =? "--service-manifest" then
        match nth_error args (i + 1) with
        | Some path => inl path
        | None => inr (IndexOutOfRange (i + 1) (length args))
        end
      else if arg =? "--no-service-manifest" then inl ""
      else scanManifest args (S i) rest' manifestFilename
  end.

Definition manifestFlag (args : list string) : string + Panic :=
  scanManifest args 0 args "services-manifest.yml".

(** The second loop of [Run]: is [--no-push] absent? *)
Fixpoint pushFlag (args : list string) (pushApplication : bool) : bool :=
  match args with
  | [] => pushApplication
  | arg :: rest => if arg =? "--no-push" then false else pushFlag rest pushApplication
  end.

(** No manifest flag among the arguments [pre]: the scan walks past them. *)
Definition no_manifest_flag (pre : list string) : Prop :=
  ~ In "--service-manifest" pre /\ ~ In "--no-service-manifest" pre.

(** ** The plugin *)

Section Plugin.
Context {World File : Type} {cf : CliConnection World} {os : OS World File}.

(** [ParseManifest], which lives in the manifest model's file, is a
    parameter: it reads the opened file and gives a manifest or an error. *)
Variable ParseManifest : File -> World -> (Manifest * option error) * World.

(** Modelled from the spec: the progress reporter's [Next(label)], which
    is declared outside the plugin's main file: purely cosmetic, it renders
    the label on the status line. *)
Definition pb_Next (label : string) : M (World := World) unit :=
  emit (ProgressNext label).

(** [c.run(args...)]. *)
Definition run (args : list string) : M (option error) :=
  debug <- peek (os_Getenv "DEBUG") ;;
  (if negb (debug =? "")
   then fmt_Printf (">> " ++ strings_Join args " " ++ nl)
   else ret tt) ;;
  fmt_Printf ("Now Running CLI Command: " ++ strings_Join args " " ++ nl) ;;
  r <- call (CliCommand args) (fun r => ApiCliCommand args (fst r) (snd r)) ;;
  ret (snd r).

(** The scan [for _, svc := range s] of [createService]. *)
Fixpoint exists_named (name : string) (s : list GetServices_Model) : bool :=
  match s with
  | [] => false
  | svc :: rest => if Name svc =? name then true else exists_named name rest
  end.

(** The polling loop [for { ... }] of [createService], [fuel] iterations
    at most. *)
Fixpoint poll (fuel : nat) (name : string) : M (option error) :=
  match fuel with
  | O => out_of_fuel
  | S fuel' =>
      r <- call (GetService name)
             (fun r => ApiGetService name (fst r) (snd r)) ;;
      match snd r with
      | Some err => ret (Some err)
      | None =>
          let service := fst r in
          pb_Next (Description (LastOperation service)) ;;
          if State (LastOperation service) =? "succeeded" then ret None
          else if State (LastOperation service) =? "failed" then
            ret (Some (fmt_Errorf
              ("error " ++ Description (LastOperation service)
               ++ " [status: " ++ State (LastOperation service) ++ "]")))
          else poll fuel' name
      end
  end.

(** The arguments of the creation command. *)
Definition creation_args (name broker plan JSONParam : string) : list string :=
  if JSONParam =? ""
  then ["create-service"; broker; plan; name]
  else ["create-service"; broker; plan; name; "-c"; JSONParam].

Definition createService (fuel : nat) (name broker plan JSONParam : string)
  : M (option error) :=
  r <- call GetServices (fun r => ApiGetServices (fst r) (snd r)) ;;
  match snd r with
  | Some err => ret (Some err)
  | None =>
      if exists_named name (fst r) then
        fmt_Printf (name ++ " already exists." ++ nl) ;;
        ret None
      else
        fmt_Printf (name ++ " will now be created." ++ nl) ;;
        result <- run (creation_args name broker plan JSONParam) ;;
        match result with
        | Some err => ret (Some err)
        | None => poll fuel name
        end
  end.

(** The loop of [createServices] over [c.manifest.Services]. *)
Fixpoint createServices_loop (fuel : nat) (services : list ServiceSpec)
  : M unit :=
  match services with
  | [] => ret tt
  | serviceObject :: rest =>
      err <- createService fuel (ServiceName serviceObject)
               (Broker serviceObject) (PlanName serviceObject)
               (JSONParameters serviceObject) ;;
      match err with
      | Some e => fmt_Printf ("Create Service Error: " ++ Error e ++ " " ++ nl)
      | None => ret tt
      end ;;
      createServices_loop fuel rest
  end.

Definition createServices (fuel : nat) (manifest : Manifest)
  : M (option error) :=
  createServices_loop fuel (Services manifest) ;;
  ret None.

(** Step 2 of [Run]: the manifest stage, entered when the file name is
    not empty. *)
Definition manifestStage (fuel : nat) (manifestFilename : string) : M unit :=
  err <- call (os_Stat manifestFilename) (OsStat manifestFilename) ;;
  if negb (os_IsNotExist err) then
    fmt_Printf ("Found ManifestFile: " ++ manifestFilename ++ nl) ;;
    o <- call (os_Open manifestFilename)
           (fun r => OsOpen manifestFilename (snd r)) ;;
    match snd o with
    | None =>
        p <- call (ParseManifest (fst o)) (fun r => Parsed (fst r) (snd r)) ;;
        match snd p with
        | Some err => fmt_Printf ("ERROR: " ++ Error err ++ nl) ;; os_Exit 1
        | None => ret tt
        end ;;
        createServices fuel (fst p) ;;
        ret tt
    | Some _ =>
        fmt_Printf ("ERROR: Unable to open " ++ manifestFilename ++ "." ++ nl) ;;
        os_Exit 1
    end
  else
    fmt_Printf ("ERROR: The file " ++ manifestFilename ++ " was not found." ++ nl) ;;
    os_Exit 1.

(** Step 3 of [Run]: the forwarded push. *)
Definition pushStage (args : list string) : M unit :=
  fmt_Printf ("Performing a CF Push with arguments "
              ++ strings_Join (tl args) " " ++ nl) ;;
  let newArgs := "push" :: tl args in
  r <- call (CliCommand newArgs) (fun r => ApiCliCommand newArgs (fst r) (snd r)) ;;
  fmt_Printf (fmt_slice (fst r) ++ nl) ;;
  match snd r with
  | Some err => fmt_Printf ("ERROR while pushing: " ++ Error err ++ nl)
  | None => ret tt
  end.

Definition Run (fuel : nat) (args : list string) : M unit :=
  match args with
  | [] => panic (IndexOutOfRange 0 0)
  | command :: _ =>
      if negb (command =? "create-service-push") then ret tt
      else
        match manifestFlag args with
        | inr p => panic p
        | inl manifestFilename =>
            let pushApplication := pushFlag args true in
            (if Nat.ltb 0 (String.length manifestFilename)
             then manifestStage fuel manifestFilename
             else ret tt) ;;
            if pushApplication then pushStage args else ret tt
        end
  end.
End Plugin.

(** ** Reading a log *)

(** The argument lists of the commands handed to [CliCommand], in order. *)
Fixpoint cli_commands (l : list Event) : list (list string) :=
  match l with
  | [] => []
  | ApiCliCommand args _ _ :: rest => args :: cli_commands rest
  | _ :: rest => cli_commands rest
  end.

(** The answers [GetServices] gave, in order. *)
Fixpoint listings (l : list Event)
  : list (list GetServices_Model * option error) :=
  match l with
  | [] => []
  | ApiGetServices s err :: rest => (s, err) :: listings rest
  | _ :: rest => listings rest
  end.

(** A status query of the polling loop. *)
Definition is_poll (ev : Event) : bool :=
  match ev with
  | ApiGetService _ _ _ => true
  | _ => false
  end.

(** What the polling loop logs: a status query or a progress line. *)
Definition is_polling (ev : Event) : bool :=
  match ev with
  | ApiGetService _ _ _ | ProgressNext _ => true
  | _ => false
  end.

(** The forwarded deploy command. *)
Definition is_push (ev : Event) : bool :=
  match ev with
  | ApiCliCommand (verb :: _) _ _ => verb =? "push"
  | _ => false
  end.

(** What the manifest branch of [Run] does and nothing else does: the file
    lookup, the open, the parse, and the orchestrator's calls to the control
    plane. *)
Definition is_manifest_work (ev : Event) : bool :=
  match ev with
  | OsStat _ _ | OsOpen _ _ | Parsed _ _ => true
  | ApiGetServices _ _ | ApiGetService _ _ _ => true
  | ApiCliCommand (verb :: _) _ _ => verb =? "create-service"
  | _ => false
  end.

(** The three fatal answers of the manifest stage: the file is not there,
    it cannot be opened, it does not parse. *)
Definition is_fatal (ev : Event) : bool :=
  match ev with
  | OsStat _ err => os_IsNotExist err
  | OsOpen _ (Some _) => true
  | Parsed _ (Some _) => true
  | _ => false
  end.

(** What the orchestrator may leave in a log. *)
Definition is_orchestration (ev : Event) : bool :=
  match ev with
  | Stdout _ | ProgressNext _ => true
  | ApiGetServices _ _ | ApiGetService _ _ _ => true
  | ApiCliCommand (verb :: _) _ _ => verb =? "create-service"
  | _ => false
  end.

(** A provisioning state that ends the polling loop. *)
Definition terminal (service : GetService_Model) : bool :=
  (State (LastOperation service) =? "succeeded")
  || (State (LastOperation service) =? "failed").

(** What a run of successful polls leaves in the log. *)
Definition poll_events (name : string) (l : list GetService_Model) : list Event :=
  flat_map (fun service =>
              [ApiGetService name service None;
               ProgressNext (Description (LastOperation service))]) l.

(** The creation command of a manifest entry. *)
Definition creation_of (e : ServiceSpec) : list string :=
  creation_args (ServiceName e) (Broker e) (PlanName e) (JSONParameters e).

(** A listing that came without error and names no service of the entry's
    name: the entry's service does not exist yet. *)
Definition reports_absent (e : ServiceSpec)
    (r : list GetServices_Model * option error) : Prop :=
  snd r = None /\ ~ In (ServiceName e) (map Name (fst r)).

(** [r] with [l] logged before it. *)
Definition after {World A} (l : list Event) (r : Res (World := World) A) : Res A :=
  mkRes (out r) (l ++ log r) (final r).

Section Environment.
Context {World : Type} {cf : CliConnection World}.

(** The platform answers the next status queries for [name] with the
    services of the list, one after the other, without error. *)
Inductive answers (name : string)
  : World -> list GetService_Model -> World -> Prop :=
| answers_nil : forall w, answers name w [] w
| answers_cons : forall w service w' l w'',
    GetService name w = ((service, None), w') ->
    answers name w' l w'' ->
    answers name w (service :: l) w''.
End Environment.

Section Termination.
Context {World File : Type} {cf : CliConnection World} {os : OS World File}.

(** Every provisioning comes to an end: from any state of the platform the
    polling of any service stops after finitely many queries. *)
Definition polls_terminate : Prop :=
  forall (name : string) (w : World),
    exists n, out (poll n name w) <> OutOfFuel.

(** What [c.run] writes before it calls the platform. *)
Definition run_lines (args : list string) (w : World) : list Event :=
  ((if negb (os_Getenv "DEBUG" w =? "")
    then [Stdout (">> " ++ strings_Join args " " ++ nl)]
    else [])
   ++ [Stdout ("Now Running CLI Command: " ++ strings_Join args " " ++ nl)])%list.

(** A computation on fuel that no amount of fuel brings to an end. *)
Definition never_ends {A} (m : nat -> M A) (w : World) : Prop :=
  forall fuel, out (m fuel w) = OutOfFuel.
End Termination.

(** ** A simulated platform

    A small platform to run the plugin on: it lists the services it has,
    answers [create-service] by adding the service (or with an error),
    answers the status queries from a script and then with the state the
    provisioning ends in, and holds the manifest files by name. *)
Module Sim.

(** How a provisioning ends. *)
Inductive ending : Type := Succeeds | Fails.

Definition succeeded : LastOperationFields := mkLastOperation "done" "succeeded".
Definition failed : LastOperationFields := mkLastOperation "broker down" "failed".
Definition in_progress : LastOperationFields :=
  mkLastOperation "creating" "in progress".

Definition last_operation (e : ending) : LastOperationFields :=
  match e with
  | Succeeds => succeeded
  | Fails => failed
  end.

Record file : Type := mkFile {
  readable : bool;
  parsed : Manifest;
  parse_error : option error
}.

Record world : Type := mkWorld {
  services : list string;
  create_error : option error;
  script : list LastOperationFields;
  settled : ending;
  push_error : option error;
  files : list (string * file);
  debug : string
}.

Fixpoint lookup (name : string) (l : list (string * file)) : option file :=
  match l with
  | [] => None
  | (n, f) :: rest => if n =? name then Some f else lookup name rest
  end.

Definition set_services (w : world) (s : list string) : world :=
  mkWorld s (create_error w) (script w) (settled w) (push_error w)
          (files w) (debug w).

Definition set_script (w : world) (s : list LastOperationFields) : world :=
  mkWorld (services w) (create_error w) s (settled w) (push_error w)
          (files w) (debug w).

Definition cli_command (args : list string) (w : world)
  : (list string * option error) * world :=
  match args with
  | "create-service" :: _ :: _ :: name :: _ =>
      match create_error w with
      | Some e => (([], Some e), w)
      | None => ((["OK"], None), set_services w (services w ++ [name]))
      end
  | _ => ((["OK"], push_error w), w)
  end.

Definition get_services (w : world)
  : (list GetServices_Model * option error) * world :=
  ((map mkGetServices_Model (services w), None), w).

Definition get_service (name : string) (w : world)
  : (GetService_Model * option error) * world :=
  match script w with
  | op :: rest => ((mkGetService_Model name op, None), set_script w rest)
  | [] => ((mkGetService_Model name (last_operation (settled w)), None), w)
  end.

Definition stat (name : string) (w : world) : option error * world :=
  match lookup name (files w) with
  | Some _ => (None, w)
  | None => (Some (mkError ("stat " ++ name ++ ": no such file or directory") true), w)
  end.

Definition open (name : string) (w : world) : (option file * option error) * world :=
  match lookup name (files w) with
  | Some f =>
      if readable f then ((Some f, None), w)
      else ((None, Some (mkError ("open " ++ name ++ ": permission denied") false)), w)
  | None => ((None, Some (mkError ("open " ++ name ++ ": no such file or directory") true)), w)
  end.

Definition parse (f : option file) (w : world) : (Manifest * option error) * world :=
  match f with
  | Some f => ((parsed f, parse_error f), w)
  | None => ((mkManifest [], Some (mkError "invalid argument" false)), w)
  end.

#[global] Instance connection : CliConnection world :=
  {| CliCommand := cli_command;
     GetServices := get_services;
     GetService := get_service |}.

#[global] Instance system : OS world (option file) :=
  {| os_Stat := stat;
     os_Open := open;
     os_Getenv := fun name w => if name =? "DEBUG" then debug w else "" |}.

Definition db1 : ServiceSpec := mkServiceSpec "db1" "mysql" "free" "".
Definition mq1 : ServiceSpec :=
  mkServiceSpec "mq1" "rabbit" "small" "{}".

Definition two_services : Manifest := mkManifest [db1; mq1].

Definition good_file : file := mkFile true two_services None.

(** An empty platform on which every provisioning succeeds at once. *)
Definition empty : world :=
  mkWorld [] None [] Succeeds None [("services-manifest.yml", good_file)] "".

(** The platform refuses every creation. *)
Definition refusing : world :=
  mkWorld [] (Some (mkError "quota exceeded" false)) [] Succeeds None
          [("services-manifest.yml", good_file)] "".

(** The same platform, except that every status query finds the
    provisioning in progress: a connection of its own, never the default. *)
Definition stuck : CliConnection world :=
  {| CliCommand := cli_command;
     GetServices := get_services;
     GetService := fun name w => ((mkGetService_Model name in_progress, None), w) |}.

(** A provisioning that needs three status queries to succeed. *)
Definition slow : world :=
  mkWorld [] None [in_progress; in_progress] Succeeds None
          [("services-manifest.yml", good_file)] "".

(** A provisioning that fails at the second status query. *)
Definition failing : world :=
  mkWorld [] None [in_progress] Fails None
          [("services-manifest.yml", good_file)] "".

(** The platform refuses every creation and the push as well. *)
Definition hostile : world :=
  mkWorld [] (Some (mkError "quota exceeded" false)) [] Succeeds
          (Some (mkError "push failed" false))
          [("services-manifest.yml", good_file)] "".

(** A platform without any manifest file. *)
Definition bare : world := mkWorld [] None [] Succeeds None [] "".

(** The same platform with the control plane out of reach: the list of
    services and the status queries fail. *)
Definition offline : CliConnection world :=
  {| CliCommand := cli_command;
     GetServices := fun w => (([], Some (mkError "connection refused" false)), w);
     GetService := fun name w =>
       ((mkGetService_Model "" (mkLastOperation "" ""),
         Some (mkError "connection refused" false)), w) |}.

(** The same platform, except that the status queries fail once the script
    is used up. *)
Definition flaky : CliConnection world :=
  {| CliCommand := cli_command;
     GetServices := get_services;
     GetService := fun name w =>
       match script w with
       | op :: rest => ((mkGetService_Model name op, None), set_script w rest)
       | [] => ((mkGetService_Model "" (mkLastOperation "" ""),
                 Some (mkError "connection reset" false)), w)
       end |}.

(** The same system, except that [os.Stat] is denied: an error, but not
    the one of a file that does not exist. *)
Definition guarded : OS world (option file) :=
  {| os_Stat := fun name w =>
       (Some (mkError ("stat " ++ name ++ ": permission denied") false), w);
     os_Open := open;
     os_Getenv := fun name w => if name =? "DEBUG" then debug w else "" |}.

(** The same system with [DEBUG] set, whatever the world says. *)
Definition verbose : OS world (option file) :=
  {| os_Stat := stat;
     os_Open := open;
     os_Getenv := fun name w => if name =? "DEBUG" then "1" else "" |}.

(** Both services of the manifest are there already. *)
Definition provisioned : world :=
  mkWorld ["db1"; "mq1"] None [] Succeeds None
          [("services-manifest.yml", good_file)] "".

(** The service [db1] is there already. *)
Definition with_db1 : world :=
  mkWorld ["cache"; "db1"] None [] Succeeds None
          [("services-manifest.yml", good_file)] "".

End Sim.

(** ** The plugin's metadata *)

(** The types of package [plugin] that [GetMetadata] fills in.  The
    [Options] of a usage are a Go map; its entries are listed in the order
    of the source, which nothing below depends on.  Two fields are renamed,
    their Go names being taken: [Usage.Usage] is [UsageText] and
    [PluginMetadata.Name] is [PluginName]. *)
Module plugin.

Record VersionType : Type := mkVersionType { Major : Z; Minor : Z; Build : Z }.

Record Usage : Type := mkUsage {
  UsageText : string;
  Options : list (string * string)
}.

Record Command : Type := mkCommand {
  Name : string;
  HelpText : string;
  UsageDetails : Usage
}.

Record PluginMetadata : Type := mkPluginMetadata {
  PluginName : string;
  Version : VersionType;
  MinCliVersion : VersionType;
  Commands : list Command
}.

End plugin.

(** [GetMetadata]. *)
Definition GetMetadata : plugin.PluginMetadata :=
  plugin.mkPluginMetadata
    "Create-Service-Push"
    (plugin.mkVersionType 1 0 1)
    (plugin.mkVersionType 6 7 0)
    [plugin.mkCommand
       "create-service-push"
       "Works in the same manner as cf push, except that it will create services defined in a services-manifest.yml file first before performing a cf push."
       (plugin.mkUsage
          ("create-service-push" ++ nl ++ "   cf create-service-push")
          [("--service-manifest <MANIFEST_FILE>",
            "Specify the fullpath and filename of the services creation manifest.  Defaults to services-manifest.yml.");
           ("--no-service-manifest",
            "Specifies that there is no service creation manifest");
           ("--no-push",
            "Create the services but do not push the application")])].

(** ** More ways to read a log *)

(** A call to the control plane. *)
Definition is_api (ev : Event) : bool :=
  match ev with
  | ApiGetServices _ _ | ApiGetService _ _ _ | ApiCliCommand _ _ _ => true
  | _ => false
  end.

(** A line on standard output or on the progress line. *)
Definition is_output (ev : Event) : bool :=
  match ev with
  | Stdout _ | ProgressNext _ => true
  | _ => false
  end.

(** What a run did, with what it printed left out. *)
Definition actions (l : list Event) : list Event :=
  filter (fun ev => negb (is_output ev)) l.

(** A listing that came without error and names a service of the entry's
    name: the entry's service exists. *)
Definition reports_present (e : ServiceSpec)
    (r : list GetServices_Model * option error) : Prop :=
  snd r = None /\ In (ServiceName e) (map Name (fst r)).

(** [l1] is [l2] with some elements left out, the order kept. *)
Inductive subsequence {A : Type} : list A -> list A -> Prop :=
| subsequence_nil : subsequence [] []
| subsequence_skip : forall l1 a l2, subsequence l1 l2 -> subsequence l1 (a :: l2)
| subsequence_keep : forall l1 a l2, subsequence l1 l2 -> subsequence (a :: l1) (a :: l2).

(** ** Laws of the effects *)

Unset Implicit Arguments.

Section EffectLaws.
Context {World : Type}.
Implicit Types (w : World) (l : list Event).

Lemma after_nil A (r : Res (World := World) A) : after [] r = r.
Proof. destruct r; reflexivity. Qed.

Lemma after_app A l1 l2 (r : Res (World := World) A) :
  after l1 (after l2 r) = after (l1 ++ l2) r.
Proof. unfold after; simpl. now rewrite app_assoc. Qed.

Lemma bind_ret A B (a : A) (f : A -> M B) w : bind (ret a) f w = f a w.
Proof. unfold bind, ret; simpl. now destruct (f a w). Qed.

Lemma bind_emit B (e : Event) (f : unit -> M B) w :
  bind (emit e) f w = after [e] (f tt w).
Proof. reflexivity. Qed.

Lemma bind_printf B (text : string) (f : unit -> M B) w :
  bind (fmt_Printf text) f w = after [Stdout text] (f tt w).
Proof. reflexivity. Qed.

Lemma bind_peek A B (g : World -> A) (f : A -> M B) w :
  bind (peek g) f w = f (g w) w.
Proof. unfold bind, peek; simpl. now destruct (f (g w) w). Qed.

Lemma bind_call A B (g : World -> A * World) (ev : A -> Event) (f : A -> M B) w :
  bind (call g ev) f w = after [ev (fst (g w))] (f (fst (g w)) (snd (g w))).
Proof. unfold bind, call. now destruct (g w). Qed.

Lemma bind_assoc A B C (m : M A) (f : A -> M B) (g : B -> M C) w :
  bind (bind m f) g w = bind m (fun a => bind (f a) g) w.
Proof.
  unfold bind. destruct (m w) as [[a | c | p |] la wa]; simpl; try reflexivity.
  destruct (f a wa) as [[b | c | p |] lb wb]; simpl; try reflexivity.
  now rewrite app_assoc.
Qed.

(** A sequence whose first part returns. *)
Lemma bind_returned A B (m : M A) (f : A -> M B) w a :
  out (m w) = Returned a ->
  bind m f w = after (log (m w)) (f a (final (m w))).
Proof. unfold bind. now intros ->. Qed.

Lemma bind_log_Forall A B (P : Event -> Prop) (m : M A) (f : A -> M B) w :
  Forall P (log (m w)) ->
  (forall a w', Forall P (log (f a w'))) ->
  Forall P (log (bind m f w)).
Proof.
  intros Hm Hf. unfold bind.
  destruct (out (m w)); simpl; auto.
  apply Forall_app; auto.
Qed.

Lemma after_log_Forall A (P : Event -> Prop) l (r : Res (World := World) A) :
  Forall P l -> Forall P (log r) -> Forall P (log (after l r)).
Proof. intros; simpl; apply Forall_app; auto. Qed.

End EffectLaws.

(** ** The polling loop *)

Section Polling.
Context {World : Type} {cf : CliConnection World}.
Implicit Types (w : World) (name : string).

(** One turn of the loop. *)
Lemma poll_step fuel name w :
  poll (S fuel) name w =
  let service := fst (fst (GetService name w)) in
  let err := snd (fst (GetService name w)) in
  let w' := snd (GetService name w) in
  after [ApiGetService name service err]
    match err with
    | Some e => ret (Some e) w'
    | None =>
        after [ProgressNext (Description (LastOperation service))]
          (if State (LastOperation service) =? "succeeded" then ret None w'
           else if State (LastOperation service) =? "failed" then
             ret (Some (fmt_Errorf
               ("error " ++ Description (LastOperation service)
                ++ " [status: " ++ State (LastOperation service) ++ "]"))) w'
           else poll fuel name w')
    end.
Proof.
  cbn [poll]. rewrite bind_call. cbn zeta.
  destruct (snd (fst (GetService name w))); [reflexivity |].
  unfold pb_Next. rewrite bind_emit.
  destruct (State _ =? "succeeded"); [reflexivity |].
  now destruct (State _ =? "failed").
Qed.

(** A state that is not terminal keeps the loop going. *)
Lemma poll_pending fuel name w service w' :
  GetService name w = ((service, None), w') ->
  terminal service = false ->
  poll (S fuel) name w = after (poll_events name [service]) (poll fuel name w').
Proof.
  intros E T. rewrite poll_step, E. cbn [fst snd].
  apply orb_false_iff in T as [-> ->]. now rewrite after_app.
Qed.

Lemma poll_succeeded fuel name w service w' :
  GetService name w = ((service, None), w') ->
  State (LastOperation service) = "succeeded" ->
  poll (S fuel) name w = mkRes (Returned None) (poll_events name [service]) w'.
Proof.
  intros E T. rewrite poll_step, E. cbn [fst snd]. now rewrite T.
Qed.

Lemma poll_failed fuel name w service w' :
  GetService name w = ((service, None), w') ->
  State (LastOperation service) = "failed" ->
  poll (S fuel) name w =
  mkRes (Returned (Some (fmt_Errorf
           ("error " ++ Description (LastOperation service)
            ++ " [status: failed]"))))
        (poll_events name [service]) w'.
Proof.
  intros E T. rewrite poll_step, E. cbn [fst snd]. now rewrite T.
Qed.

(** More fuel does not change a loop that came to an end. *)
Lemma poll_mono n name w :
  out (poll n name w) <> OutOfFuel ->
  forall m, n <= m -> poll m name w = poll n name w.
Proof.
  revert w. induction n as [| n IH]; intros w H m Hm.
  - now destruct H.
  - destruct m as [| m]; [lia |].
    rewrite !poll_step in *. cbn zeta in *.
    destruct (snd (fst (GetService name w))); [reflexivity |].
    destruct (State _ =? "succeeded"); [reflexivity |].
    destruct (State _ =? "failed"); [reflexivity |].
    rewrite (IH _ H m); [reflexivity | lia].
Qed.

(** The loop logs status queries and progress lines only. *)
Lemma poll_log fuel name w :
  Forall (fun ev => is_polling ev = true) (log (poll fuel name w)).
Proof.
  revert w. induction fuel as [| n IH]; intros w; [constructor |].
  rewrite poll_step. cbn zeta.
  destruct (snd (fst (GetService name w))).
  - repeat constructor.
  - destruct (State _ =? "succeeded"); [repeat constructor |].
    destruct (State _ =? "failed"); [repeat constructor |].
    simpl. repeat constructor. apply IH.
Qed.

(** The loop returns, or its fuel runs out: it neither exits nor panics. *)
Lemma poll_out fuel name w :
  (exists e, out (poll fuel name w) = Returned e)
  \/ out (poll fuel name w) = OutOfFuel.
Proof.
  revert w. induction fuel as [| n IH]; intros w; [now right |].
  rewrite poll_step. cbn zeta.
  destruct (snd (fst (GetService name w))); [left; eexists; reflexivity |].
  destruct (State _ =? "succeeded"); [left; eexists; reflexivity |].
  destruct (State _ =? "failed"); [left; eexists; reflexivity |].
  apply IH.
Qed.

Lemma answers_app name w l1 l2 w'' :
  answers name w (l1 ++ l2) w'' ->
  exists w', answers name w l1 w' /\ answers name w' l2 w''.
Proof.
  revert w. induction l1 as [| s l1 IH]; intros w H.
  - exists w. split; [constructor | exact H].
  - inversion H as [| ? ? w1 ? ? E H1]; subst.
    destruct (IH _ H1) as (w' & Ha & Hb).
    exists w'. split; [econstructor; eassumption | exact Hb].
Qed.

(** Through a run of states none of which is terminal the loop only logs
    and goes on. *)
Lemma poll_through name w l w' :
  answers name w l w' ->
  forallb (fun s => negb (terminal s)) l = true ->
  forall k, poll (length l + k) name w = after (poll_events name l) (poll k name w').
Proof.
  induction 1 as [w | w service w1 l w2 E _ IH]; intros T k.
  - now rewrite after_nil.
  - cbn [forallb] in T. apply andb_true_iff in T as [T1 T2].
    apply negb_true_iff in T1.
    cbn [length Nat.add]. rewrite (poll_pending _ _ _ _ _ E T1), (IH T2).
    now rewrite after_app.
Qed.

Lemma poll_events_app name l1 l2 :
  poll_events name (l1 ++ l2) = (poll_events name l1 ++ poll_events name l2)%list.
Proof. apply flat_map_app. Qed.
End Polling.

(** C5: for every sequence of polled states the loop goes through the
    states that are neither "succeeded" nor "failed" and stops at the first
    one that is: on "succeeded" it returns nil, on "failed" it returns an
    error whose message holds the description and the state; while neither
    has come it keeps polling. *)
Theorem poll_first_terminal {World : Type} {cf : CliConnection World}
    (name : string) (w w' : World)
    (pre : list GetService_Model) (service : GetService_Model) (fuel : nat) :
  answers name w (pre ++ [service]) w' ->
  forallb (fun s => negb (terminal s)) pre = true ->
  length pre < fuel ->
  (State (LastOperation service) = "succeeded" ->
   poll fuel name w =
   mkRes (Returned None) (poll_events name (pre ++ [service])) w')
  /\ (State (LastOperation service) = "failed" ->
      poll fuel name w =
      mkRes (Returned (Some (fmt_Errorf
               ("error " ++ Description (LastOperation service)
                ++ " [status: failed]"))))
            (poll_events name (pre ++ [service])) w')
  /\ (terminal service = false ->
      poll fuel name w =
      after (poll_events name (pre ++ [service]))
            (poll (fuel - S (length pre)) name w')).
Proof.
  intros Ha Hpre Hfuel.
  apply answers_app in Ha as (w1 & Hpre_run & Hlast).
  inversion Hlast as [| ? ? w2 ? ? E Hnil]; subst.
  inversion Hnil; subst.
  replace fuel with (length pre + S (fuel - S (length pre))) at 1 2 3 by lia.
  rewrite (poll_through _ _ _ _ Hpre_run Hpre), poll_events_app.
  repeat split; intros T.
  - rewrite (poll_succeeded _ _ _ _ _ E T). unfold after; simpl. reflexivity.
  - rewrite (poll_failed _ _ _ _ _ E T). unfold after; simpl. reflexivity.
  - rewrite (poll_pending _ _ _ _ _ E T). now rewrite after_app.
Qed.

Lemma poll_first_terminal_witness :
  poll 5 "db1" Sim.slow =
  mkRes (Returned None)
        (poll_events "db1"
           [mkGetService_Model "db1" Sim.in_progress;
            mkGetService_Model "db1" Sim.in_progress;
            mkGetService_Model "db1" Sim.succeeded])
        (Sim.set_script Sim.slow []).
Proof.
  refine (proj1 (poll_first_terminal "db1" Sim.slow _
                   [mkGetService_Model "db1" Sim.in_progress;
                    mkGetService_Model "db1" Sim.in_progress]
                   (mkGetService_Model "db1" Sim.succeeded) 5 _ _ _) _).
  - repeat (econstructor; [reflexivity |]). constructor.
  - reflexivity.
  - simpl; lia.
  - reflexivity.
Defined.

(** ** Logs of the polling loop and of commands *)

Lemma cli_commands_app (l1 l2 : list Event) :
  cli_commands (l1 ++ l2) = (cli_commands l1 ++ cli_commands l2)%list.
Proof.
  induction l1 as [| ev l1 IH]; [reflexivity |].
  destruct ev; simpl; now rewrite ?IH.
Qed.

Lemma listings_app (l1 l2 : list Event) :
  listings (l1 ++ l2) = (listings l1 ++ listings l2)%list.
Proof.
  induction l1 as [| ev l1 IH]; [reflexivity |].
  destruct ev; simpl; now rewrite ?IH.
Qed.

Lemma polling_no_commands (l : list Event) :
  Forall (fun ev => is_polling ev = true) l ->
  cli_commands l = [] /\ listings l = [].
Proof.
  induction 1 as [| ev l Hev _ [IH1 IH2]]; [now split |].
  destruct ev; try discriminate; simpl; now split.
Qed.

Lemma polling_is_orchestration (ev : Event) :
  is_polling ev = true -> is_orchestration ev = true.
Proof. now destruct ev. Qed.

Lemma orchestration_not_push (ev : Event) :
  is_orchestration ev = true -> is_push ev = false.
Proof.
  destruct ev as [| | | | | | | args ? ?]; try reflexivity.
  destruct args as [| a args]; [reflexivity |]. simpl.
  intros H. apply String.eqb_eq in H. now subst.
Qed.

Lemma orchestration_not_fatal (ev : Event) :
  is_orchestration ev = true -> is_fatal ev = false.
Proof. destruct ev; simpl; try reflexivity; discriminate. Qed.

Lemma exists_named_In (name : string) (s : list GetServices_Model) :
  exists_named name s = true <-> In name (map Name s).
Proof.
  induction s as [| svc s IH]; simpl.
  - split; [discriminate | tauto].
  - destruct (String.eqb_spec (Name svc) name) as [E | E].
    + split; auto.
    + rewrite IH. split; [auto | intros [H | H]; [contradiction | exact H]].
Qed.

Lemma creation_args_head (name broker plan JSONParam : string) :
  exists rest, creation_args name broker plan JSONParam = "create-service" :: rest.
Proof.
  unfold creation_args. destruct (JSONParam =? ""); eexists; reflexivity.
Qed.

(** ** Creating one service *)

Section OneService.
Context {World File : Type} {cf : CliConnection World} {os : OS World File}.
Implicit Types (w : World) (name broker plan JSONParam : string).

Lemma run_step (args : list string) w :
  run args w =
  mkRes (Returned (snd (fst (CliCommand args w))))
        (run_lines args w
         ++ [ApiCliCommand args (fst (fst (CliCommand args w)))
                           (snd (fst (CliCommand args w)))])
        (snd (CliCommand args w)).
Proof.
  unfold run, run_lines. rewrite bind_peek.
  destruct (negb (os_Getenv "DEBUG" w =? "")).
  - rewrite !bind_printf, bind_call. reflexivity.
  - rewrite bind_ret, bind_printf, bind_call. reflexivity.
Qed.

(** [createService], one call after the other. *)
Lemma createService_step fuel name broker plan JSONParam w :
  createService fuel name broker plan JSONParam w =
  let s := fst (fst (GetServices w)) in
  let err := snd (fst (GetServices w)) in
  let w1 := snd (GetServices w) in
  let args := creation_args name broker plan JSONParam in
  after [ApiGetServices s err]
    match err with
    | Some e => ret (Some e) w1
    | None =>
        if exists_named name s then
          mkRes (Returned None) [Stdout (name ++ " already exists." ++ nl)] w1
        else
          after (Stdout (name ++ " will now be created." ++ nl)
                 :: run_lines args w1
                 ++ [ApiCliCommand args (fst (fst (CliCommand args w1)))
                                   (snd (fst (CliCommand args w1)))])
            match snd (fst (CliCommand args w1)) with
            | Some e => ret (Some e) (snd (CliCommand args w1))
            | None => poll fuel name (snd (CliCommand args w1))
            end
    end.
Proof.
  unfold createService. rewrite bind_call. cbn zeta.
  destruct (snd (fst (GetServices w))); [reflexivity |].
  destruct (exists_named name _).
  - now rewrite bind_printf.
  - rewrite bind_printf.
    rewrite (bind_returned _ _ (run _) _ _ (snd (fst (CliCommand _ _))))
      by now rewrite run_step.
    rewrite run_step. cbn [log final].
    now destruct (snd (fst (CliCommand _ _))).
Qed.

(** A creation returns or runs out of fuel; it neither exits nor panics. *)
Lemma createService_out fuel name broker plan JSONParam w :
  (exists e, out (createService fuel name broker plan JSONParam w) = Returned e)
  \/ out (createService fuel name broker plan JSONParam w) = OutOfFuel.
Proof.
  rewrite createService_step. cbn zeta.
  destruct (snd (fst (GetServices w))); [left; eexists; reflexivity |].
  destruct (exists_named name _); [left; eexists; reflexivity |].
  destruct (snd (fst (CliCommand _ _))); [left; eexists; reflexivity |].
  apply poll_out.
Qed.

(** More fuel does not change a creation that came to an end. *)
Lemma createService_mono n name broker plan JSONParam w :
  out (createService n name broker plan JSONParam w) <> OutOfFuel ->
  forall m, n <= m ->
  createService m name broker plan JSONParam w
  = createService n name broker plan JSONParam w.
Proof.
  intros H m Hm. rewrite !createService_step in *. cbn zeta in *.
  destruct (snd (fst (GetServices w))); [reflexivity |].
  destruct (exists_named name _); [reflexivity |].
  destruct (snd (fst (CliCommand _ _))); [reflexivity |].
  now rewrite (poll_mono _ _ _ H m Hm).
Qed.

(** When every polling stops, fuel for one creation can be found. *)
Lemma createService_terminates name broker plan JSONParam w :
  polls_terminate ->
  exists n, out (createService n name broker plan JSONParam w) <> OutOfFuel.
Proof.
  intros T.
  destruct (T name (snd (CliCommand (creation_args name broker plan JSONParam)
                                    (snd (GetServices w))))) as [n Hn].
  exists n. rewrite createService_step. cbn zeta.
  destruct (snd (fst (GetServices w))); [discriminate |].
  destruct (exists_named name _); [discriminate |].
  destruct (snd (fst (CliCommand _ _))); [discriminate | exact Hn].
Qed.

(** A creation leaves only orchestration events in the log. *)
Lemma createService_log fuel name broker plan JSONParam w :
  Forall (fun ev => is_orchestration ev = true)
         (log (createService fuel name broker plan JSONParam w)).
Proof.
  rewrite createService_step. cbn zeta.
  apply after_log_Forall; [repeat constructor |].
  destruct (snd (fst (GetServices w))); [constructor |].
  destruct (exists_named name _); [repeat constructor |].
  apply after_log_Forall.
  - constructor; [reflexivity |]. apply Forall_app. split.
    + unfold run_lines. destruct (negb _); repeat constructor.
    + destruct (creation_args_head name broker plan JSONParam) as [rest ->].
      repeat constructor.
  - destruct (snd (fst (CliCommand _ _))); [constructor |].
    eapply Forall_impl; [| apply poll_log].
    intros ev; apply polling_is_orchestration.
Qed.

(** A creation asks for the list of services exactly once. *)
Lemma createService_listings fuel name broker plan JSONParam w :
  listings (log (createService fuel name broker plan JSONParam w))
  = [fst (GetServices w)].
Proof.
  rewrite createService_step. cbn zeta.
  destruct (GetServices w) as [[s e] w1]. cbn [fst snd].
  unfold after at 1. cbn [log]. rewrite listings_app. cbn [listings].
  match goal with |- (_ ++ ?x)%list = _ => enough (x = []) as -> by reflexivity end.
  destruct e; [reflexivity |].
  destruct (exists_named name _); [reflexivity |].
  assert (R : forall a, listings (run_lines a w1) = []).
  { intros a. unfold run_lines. now destruct (negb _). }
  unfold after. cbn [log]. rewrite listings_app. cbn [listings].
  rewrite listings_app, R. cbn [listings app].
  destruct (snd (fst (CliCommand _ _))); [reflexivity |].
  apply (polling_no_commands _ (poll_log _ _ _)).
Qed.

(** The commands of a creation: none when the listing fails or names the
    service, the creation command otherwise. *)
Lemma createService_commands fuel name broker plan JSONParam w :
  cli_commands (log (createService fuel name broker plan JSONParam w))
  = match snd (fst (GetServices w)) with
    | Some _ => []
    | None =>
        if exists_named name (fst (fst (GetServices w))) then []
        else [creation_args name broker plan JSONParam]
    end.
Proof.
  rewrite createService_step. cbn zeta.
  destruct (GetServices w) as [[s e] w1]. cbn [fst snd].
  unfold after at 1. cbn [log]. rewrite cli_commands_app. cbn [cli_commands app].
  destruct e; [reflexivity |].
  destruct (exists_named name _); [reflexivity |].
  assert (R : forall a, cli_commands (run_lines a w1) = []).
  { intros a. unfold run_lines. now destruct (negb _). }
  unfold after. cbn [log]. rewrite cli_commands_app. cbn [cli_commands].
  rewrite cli_commands_app, R. cbn [cli_commands app]. f_equal.
  destruct (snd (fst (CliCommand _ _))); [reflexivity |].
  apply (polling_no_commands _ (poll_log _ _ _)).
Qed.
End OneService.

Section OneServiceClaims.
Context {World File : Type} {cf : CliConnection World} {os : OS World File}.
Implicit Types (w : World) (name broker plan JSONParam : string).

Lemma run_lines_stdout (args : list string) w (ev : Event) :
  In ev (run_lines args w) -> exists text, ev = Stdout text.
Proof.
  unfold run_lines. destruct (negb _); simpl; intros H;
    repeat (destruct H as [H | H]; [eexists; symmetry; exact H |]);
    contradiction.
Qed.

Lemma run_lines_no_poll (args : list string) w :
  existsb is_poll (run_lines args w) = false.
Proof. unfold run_lines. now destruct (negb _). Qed.

(** C3: when the list of services the platform returns holds a service
    whose name is the requested name, character for character,
    [createService] issues no command at all, says that the service exists
    and returns nil. *)
Theorem createService_existing fuel name broker plan JSONParam w w'
    (s : list GetServices_Model) :
  GetServices w = ((s, None), w') ->
  In name (map Name s) ->
  createService fuel name broker plan JSONParam w
  = mkRes (Returned None)
          [ApiGetServices s None; Stdout (name ++ " already exists." ++ nl)] w'
  /\ cli_commands (log (createService fuel name broker plan JSONParam w)) = [].
Proof.
  intros E Hin. apply exists_named_In in Hin.
  rewrite createService_commands, createService_step, E.
  cbn zeta. cbn [fst snd]. rewrite Hin. split; reflexivity.
Qed.

(** C1, as the code has it: when the creation command returns an error,
    [createService] returns that error at once and asks for the status of
    the service not a single time. *)
Theorem createService_creation_error fuel name broker plan JSONParam w
    (args output : list string) (e : error) :
  In (ApiCliCommand args output (Some e))
     (log (createService fuel name broker plan JSONParam w)) ->
  out (createService fuel name broker plan JSONParam w) = Returned (Some e)
  /\ existsb is_poll (log (createService fuel name broker plan JSONParam w))
     = false.
Proof.
  rewrite createService_step. cbn zeta.
  destruct (GetServices w) as [[s e0] w1]. cbn [fst snd].
  destruct e0 as [e0 |].
  { simpl. intros [H | []]; discriminate. }
  destruct (exists_named name s).
  { simpl. intros [H | [H | []]]; discriminate. }
  destruct (CliCommand _ w1) as [[o ce] w2]. cbn [fst snd].
  unfold after. cbn [log out app].
  intros [H | [H | H]]; try discriminate.
  rewrite <- app_assoc in H. apply in_app_or in H as [H | H].
  { apply run_lines_stdout in H as [t H]; discriminate. }
  cbn [app] in H. destruct H as [H | H].
  - injection H as -> -> ->. split; [reflexivity |].
    cbn [existsb is_poll orb]. rewrite <- app_assoc, existsb_app.
    now rewrite run_lines_no_poll.
  - destruct ce as [ce |]; [destruct H |].
    pose proof (poll_log fuel name w2) as P.
    rewrite Forall_forall in P. now specialize (P _ H).
Qed.
End OneServiceClaims.

Lemma createService_existing_witness :
  createService 5 "db1" "mysql" "free" "" Sim.with_db1
  = mkRes (Returned None)
          [ApiGetServices [mkGetServices_Model "cache"; mkGetServices_Model "db1"] None;
           Stdout ("db1" ++ " already exists." ++ nl)] Sim.with_db1
  /\ cli_commands (log (createService 5 "db1" "mysql" "free" "" Sim.with_db1)) = [].
Proof.
  apply (createService_existing 5 "db1" "mysql" "free" "" Sim.with_db1 Sim.with_db1
           [mkGetServices_Model "cache"; mkGetServices_Model "db1"]).
  - reflexivity.
  - simpl. right. left. reflexivity.
Defined.

Lemma createService_creation_error_witness :
  out (createService 5 "db1" "mysql" "free" "" Sim.refusing)
  = Returned (Some (mkError "quota exceeded" false))
  /\ existsb is_poll (log (createService 5 "db1" "mysql" "free" "" Sim.refusing))
     = false.
Proof.
  apply (createService_creation_error 5 "db1" "mysql" "free" "" Sim.refusing
           ["create-service"; "mysql"; "free"; "db1"] []).
  simpl. right. right. right. left. reflexivity.
Defined.

(** C1, as the claim has it, fails: the platform refuses the creation of
    [db1], and [createService] returns the error with the creation command
    as the last thing it did; no status query follows. *)
Lemma createService_creation_error_counterexample :
  createService 5 "db1" "mysql" "free" "" Sim.refusing
  = mkRes (Returned (Some (mkError "quota exceeded" false)))
          [ApiGetServices [] None;
           Stdout ("db1 will now be created." ++ nl);
           Stdout ("Now Running CLI Command: create-service mysql free db1" ++ nl);
           ApiCliCommand ["create-service"; "mysql"; "free"; "db1"] []
                         (Some (mkError "quota exceeded" false))]
          Sim.refusing
  /\ filter is_poll (log (createService 5 "db1" "mysql" "free" "" Sim.refusing))
     = [].
Proof. split; reflexivity. Qed.

(** ** The batch *)

Section Batch.
Context {World File : Type} {cf : CliConnection World} {os : OS World File}.
Implicit Types (w : World) (services : list ServiceSpec).

(** What is printed for the outcome of one creation. *)
Lemma report_step (err : option error) w :
  match err with
  | Some e => fmt_Printf ("Create Service Error: " ++ Error e ++ " " ++ nl)
  | None => ret tt
  end w
  = mkRes (Returned tt)
          match err with
          | Some e => [Stdout ("Create Service Error: " ++ Error e ++ " " ++ nl)]
          | None => []
          end w.
Proof. now destruct err. Qed.

(** One turn of the loop of [createServices], for a creation that returned. *)
Lemma createServices_loop_cons fuel (e : ServiceSpec) services w err :
  out (createService fuel (ServiceName e) (Broker e) (PlanName e)
         (JSONParameters e) w) = Returned err ->
  createServices_loop fuel (e :: services) w
  = after (log (createService fuel (ServiceName e) (Broker e) (PlanName e)
                  (JSONParameters e) w)
           ++ match err with
              | Some e' => [Stdout ("Create Service Error: " ++ Error e' ++ " " ++ nl)]
              | None => []
              end)
      (createServices_loop fuel services
         (final (createService fuel (ServiceName e) (Broker e) (PlanName e)
                   (JSONParameters e) w))).
Proof.
  intros H. cbn [createServices_loop].
  rewrite (bind_returned _ _ _ _ _ err H).
  rewrite (bind_returned _ _ _ _ _ tt) by now rewrite report_step.
  rewrite report_step. cbn [log final]. now rewrite after_app.
Qed.

(** One turn of the loop, for a creation whose polling ran out of fuel. *)
Lemma createServices_loop_stuck fuel (e : ServiceSpec) services w :
  out (createService fuel (ServiceName e) (Broker e) (PlanName e)
         (JSONParameters e) w) = OutOfFuel ->
  out (createServices_loop fuel (e :: services) w) = OutOfFuel.
Proof.
  intros H. cbn [createServices_loop]. unfold bind at 1. now rewrite H.
Qed.

(** The loop returns or runs out of fuel. *)
Lemma createServices_loop_out fuel services w :
  out (createServices_loop fuel services w) = Returned tt
  \/ out (createServices_loop fuel services w) = OutOfFuel.
Proof.
  revert w. induction services as [| e services IH]; intros w; [now left |].
  destruct (createService_out fuel (ServiceName e) (Broker e) (PlanName e)
              (JSONParameters e) w) as [[err H] | H].
  - rewrite (createServices_loop_cons _ _ _ _ _ H). apply IH.
  - right. now apply createServices_loop_stuck.
Qed.

(** The loop leaves only orchestration events in the log. *)
Lemma createServices_loop_log fuel services w :
  Forall (fun ev => is_orchestration ev = true)
         (log (createServices_loop fuel services w)).
Proof.
  revert w. induction services as [| e services IH]; intros w; [constructor |].
  cbn [createServices_loop].
  apply bind_log_Forall; [apply createService_log |].
  intros err w1. apply bind_log_Forall; [| intros; apply IH].
  destruct err; repeat constructor.
Qed.

(** More fuel does not change a batch that came to an end. *)
Lemma createServices_loop_mono n services w :
  out (createServices_loop n services w) <> OutOfFuel ->
  forall m, n <= m -> createServices_loop m services w = createServices_loop n services w.
Proof.
  revert w. induction services as [| e services IH]; intros w H m Hm; [reflexivity |].
  destruct (createService_out n (ServiceName e) (Broker e) (PlanName e)
              (JSONParameters e) w) as [[err E] | E].
  - assert (E' := E).
    rewrite <- (createService_mono n _ _ _ _ w) with (m := m) in E'
      by (try rewrite E; try discriminate; exact Hm).
    rewrite (createServices_loop_cons _ _ _ _ _ E) in H.
    rewrite (createServices_loop_cons _ _ _ _ _ E).
    rewrite (createServices_loop_cons _ _ _ _ _ E').
    rewrite (createService_mono n _ _ _ _ w) with (m := m)
      by (try rewrite E; try discriminate; exact Hm).
    now rewrite (IH _ H m Hm).
  - now rewrite (createServices_loop_stuck _ _ _ _ E) in H.
Qed.

(** When every polling stops, fuel for the whole batch can be found. *)
Lemma createServices_loop_terminates services w :
  polls_terminate ->
  exists n, forall m, n <= m -> out (createServices_loop m services w) = Returned tt.
Proof.
  intros T. revert w. induction services as [| e services IH]; intros w.
  - exists 0. reflexivity.
  - destruct (createService_terminates (ServiceName e) (Broker e) (PlanName e)
                (JSONParameters e) w T) as [n1 H1].
    destruct (createService_out n1 (ServiceName e) (Broker e) (PlanName e)
                (JSONParameters e) w) as [[err E] | E]; [| contradiction].
    destruct (IH (final (createService n1 (ServiceName e) (Broker e)
                           (PlanName e) (JSONParameters e) w))) as [n2 H2].
    exists (Nat.max n1 n2). intros m Hm.
    assert (Em : createService m (ServiceName e) (Broker e) (PlanName e)
                   (JSONParameters e) w
                 = createService n1 (ServiceName e) (Broker e) (PlanName e)
                     (JSONParameters e) w)
      by (apply createService_mono; [exact H1 | lia]).
    rewrite (createServices_loop_cons m e services w err)
      by now rewrite Em.
    cbn [after out]. rewrite Em. apply H2. lia.
Qed.

(** The batch, split at any entry. *)
Lemma createServices_loop_app fuel services1 services2 w :
  out (createServices_loop fuel services1 w) = Returned tt ->
  createServices_loop fuel (services1 ++ services2) w
  = after (log (createServices_loop fuel services1 w))
      (createServices_loop fuel services2
         (final (createServices_loop fuel services1 w))).
Proof.
  revert w. induction services1 as [| e services1 IH]; intros w H.
  - cbn. now rewrite after_nil.
  - destruct (createService_out fuel (ServiceName e) (Broker e) (PlanName e)
                (JSONParameters e) w) as [[err E] | E].
    + cbn [app].
      rewrite (createServices_loop_cons _ _ services1 _ _ E) in H |- *.
      rewrite (createServices_loop_cons _ _ (services1 ++ services2) _ _ E).
      cbn [after out log final] in *.
      rewrite (IH _ H). now rewrite after_app.
    + now rewrite (createServices_loop_stuck _ _ _ _ E) in H.
Qed.

(** [createServices] is its loop followed by [return nil]. *)
Lemma createServices_step fuel (manifest : Manifest) w :
  createServices fuel manifest w
  = mkRes match out (createServices_loop fuel (Services manifest) w) with
          | Returned _ => Returned None
          | Exited c => Exited c
          | Panicked p => Panicked p
          | OutOfFuel => OutOfFuel
          end
          (log (createServices_loop fuel (Services manifest) w))
          (final (createServices_loop fuel (Services manifest) w)).
Proof.
  unfold createServices, bind.
  destruct (out (createServices_loop fuel (Services manifest) w)); try reflexivity.
  cbn. now rewrite app_nil_r.
Qed.
End Batch.

Section BatchClaims.
Context {World File : Type} {cf : CliConnection World} {os : OS World File}.
Implicit Types (w : World) (services : list ServiceSpec).

Lemma report_no_calls (err : option error) :
  let l := match err with
           | Some e' => [Stdout ("Create Service Error: " ++ Error e' ++ " " ++ nl)]
           | None => []
           end in
  cli_commands l = [] /\ listings l = [].
Proof. now destruct err. Qed.

Lemma exists_named_absent (e : ServiceSpec) r :
  reports_absent e r -> exists_named (ServiceName e) (fst r) = false.
Proof.
  intros [_ H]. destruct (exists_named _ _) eqn:E; [| reflexivity].
  now apply exists_named_In in E.
Qed.

(** The commands of a batch that came to its end with every entry's
    service reported absent at the entry's turn. *)
Lemma createServices_loop_commands fuel services w :
  out (createServices_loop fuel services w) = Returned tt ->
  Forall2 reports_absent services
          (listings (log (createServices_loop fuel services w))) ->
  cli_commands (log (createServices_loop fuel services w))
  = map creation_of services.
Proof.
  revert w. induction services as [| e services IH]; intros w H Hl; [reflexivity |].
  destruct (createService_out fuel (ServiceName e) (Broker e) (PlanName e)
              (JSONParameters e) w) as [[err E] | E].
  2: now rewrite (createServices_loop_stuck _ _ _ _ E) in H.
  rewrite (createServices_loop_cons _ _ _ _ _ E) in H, Hl |- *.
  cbn [after out log] in *.
  destruct (report_no_calls err) as [Rc Rl]. cbn zeta in Rc, Rl.
  rewrite !listings_app, Rl, createService_listings in Hl.
  rewrite !cli_commands_app, Rc, createService_commands.
  cbn [app] in Hl. inversion Hl as [| ? ? ? ? Habs Hrest]; subst.
  rewrite (proj1 Habs), (exists_named_absent _ _ Habs).
  cbn [app map]. f_equal. now apply IH.
Qed.


(** C4: when [createService] returns an error for an entry, the error is
    printed and the batch goes on with the entries after it, from the state
    the failed creation left, exactly as a batch of those entries alone
    would. *)
Theorem createServices_continues_after_error fuel
    (before : list ServiceSpec) (e : ServiceSpec) (rest : list ServiceSpec)
    w (err : error) :
  let done := createServices fuel (mkManifest before) w in
  let this := createService fuel (ServiceName e) (Broker e) (PlanName e)
                (JSONParameters e) (final done) in
  out done = Returned None ->
  out this = Returned (Some err) ->
  createServices fuel (mkManifest (before ++ e :: rest)) w
  = after (log done ++ log this
           ++ [Stdout ("Create Service Error: " ++ Error err ++ " " ++ nl)])
      (createServices fuel (mkManifest rest) (final this)).
Proof.
  cbn zeta. rewrite !createServices_step. cbn [Services out log final].
  intros H1 H2.
  assert (R : out (createServices_loop fuel before w) = Returned tt).
  { destruct (createServices_loop_out fuel before w) as [R | R];
      [exact R | now rewrite R in H1]. }
  rewrite (createServices_loop_app _ _ _ _ R).
  rewrite (createServices_loop_cons _ _ _ _ _ H2).
  unfold after. cbn [out log final]. now rewrite !app_assoc.
Qed.

End BatchClaims.

(** On the simulated platform every polling comes to an end: at the
    latest when the script is used up. *)
Lemma Sim_polls_terminate : polls_terminate (cf := Sim.connection).
Proof.
  intros name w. exists (S (length (Sim.script w))).
  destruct w as [sv ce sc st pe fs db]. cbn [Sim.script].
  induction sc as [| op sc IH]; rewrite poll_step; cbn.
  - destruct st; discriminate.
  - destruct (State op =? "succeeded"); [discriminate |].
    destruct (State op =? "failed"); [discriminate |].
    exact IH.
Qed.


Lemma createServices_continues_after_error_witness :
  createServices 5 (mkManifest [Sim.db1; Sim.mq1; Sim.db1]) Sim.refusing
  = after (log (createServices 5 (mkManifest [Sim.db1]) Sim.refusing)
           ++ log (createService 5 "mq1" "rabbit" "small" "{}" Sim.refusing)
           ++ [Stdout ("Create Service Error: quota exceeded " ++ nl)])
      (createServices 5 (mkManifest [Sim.db1]) Sim.refusing).
Proof.
  exact (createServices_continues_after_error 5 [Sim.db1] Sim.mq1 [Sim.db1]
           Sim.refusing (mkError "quota exceeded" false) eq_refl eq_refl).
Defined.


(** ** The flag scans *)

Lemma scanManifest_reaches_no (args : list string) (i : nat)
    (pre tail : list string) (d : string) :
  ~ In "--service-manifest" pre ->
  scanManifest args i (pre ++ "--no-service-manifest" :: tail) d = inl "".
Proof.
  revert i. induction pre as [| a pre IH]; intros i H; cbn.
  - reflexivity.
  - destruct (String.eqb_spec a "--service-manifest") as [-> | _].
    + destruct H. now left.
    + destruct (a =? "--no-service-manifest"); [reflexivity |].
      apply IH. intros Hin. apply H. now right.
Qed.

Lemma scanManifest_reaches (args done pre tail : list string) (d : string) :
  args = (done ++ pre ++ "--service-manifest" :: tail)%list ->
  no_manifest_flag pre ->
  scanManifest args (length done) (pre ++ "--service-manifest" :: tail) d
  = match tail with
    | [] => inr (IndexOutOfRange (length args) (length args))
    | path :: _ => inl path
    end.
Proof.
  revert done. induction pre as [| a pre IH]; intros done E [H1 H2]; cbn.
  - assert (N : nth_error args (length done + 1) = nth_error tail 0).
    { subst args. rewrite nth_error_app2 by lia.
      now replace (length done + 1 - length done) with 1 by lia. }
    rewrite N. destruct tail as [| path tail]; cbn; [| reflexivity].
    subst args. rewrite length_app. cbn. now rewrite Nat.add_comm.
  - destruct (String.eqb_spec a "--service-manifest") as [-> | _];
      [destruct H1; now left |].
    destruct (String.eqb_spec a "--no-service-manifest") as [-> | _];
      [destruct H2; now left |].
    specialize (IH (done ++ [a])%list).
    rewrite length_app, Nat.add_comm in IH. cbn in IH. apply IH.
    + now rewrite <- app_assoc.
    + split; intros Hin; [apply H1 | apply H2]; now right.
Qed.

(** Every panic of the scan is a read behind a trailing
    [--service-manifest] that no other manifest flag precedes. *)
Lemma scanManifest_panics (args : list string) (rest done : list string)
    (d : string) (p : Panic) :
  args = (done ++ rest)%list ->
  scanManifest args (length done) rest d = inr p ->
  exists pre, rest = (pre ++ ["--service-manifest"])%list /\ no_manifest_flag pre.
Proof.
  revert done. induction rest as [| a rest IH]; intros done E; cbn; [discriminate |].
  destruct (String.eqb_spec a "--service-manifest") as [-> | N1].
  - assert (N : nth_error args (length done + 1) = nth_error rest 0).
    { subst args. rewrite nth_error_app2 by lia.
      now replace (length done + 1 - length done) with 1 by lia. }
    rewrite N. destruct rest as [| path rest]; cbn; [| discriminate].
    intros _. exists []. split; [reflexivity | split; intros []].
  - destruct (String.eqb_spec a "--no-service-manifest") as [-> | N2];
      [discriminate |].
    intros H. specialize (IH (done ++ [a])%list).
    rewrite length_app, Nat.add_comm in IH. cbn in IH.
    destruct IH as (pre & -> & F1 & F2); [now rewrite <- app_assoc | exact H |].
    exists (a :: pre). split; [reflexivity |].
    split; intros [Hin | Hin]; auto.
Qed.

Lemma pushFlag_no_push (args : list string) (b : bool) :
  In "--no-push" args -> pushFlag args b = false.
Proof.
  induction args as [| a args IH]; cbn; [intros [] |].
  destruct (String.eqb_spec a "--no-push") as [_ | N]; [reflexivity |].
  intros [H | H]; [contradiction | auto].
Qed.

(** ** The entry point *)

Section EntryPoint.
Context {World File : Type} {cf : CliConnection World} {os : OS World File}.
Variable ParseManifest : File -> World -> (Manifest * option error) * World.
Implicit Types (w : World) (args : list string).

(** The forwarded push: it always returns. *)
Lemma pushStage_step args w :
  pushStage args w =
  let r := CliCommand ("push" :: tl args) w in
  mkRes (Returned tt)
        ([Stdout ("Performing a CF Push with arguments "
                  ++ strings_Join (tl args) " " ++ nl);
          ApiCliCommand ("push" :: tl args) (fst (fst r)) (snd (fst r));
          Stdout (fmt_slice (fst (fst r)) ++ nl)]
         ++ match snd (fst r) with
            | Some err => [Stdout ("ERROR while pushing: " ++ Error err ++ nl)]
            | None => []
            end)
        (snd r).
Proof.
  unfold pushStage. rewrite bind_printf, bind_call, bind_printf. cbn zeta.
  now destruct (snd (fst (CliCommand ("push" :: tl args) w))).
Qed.

(** The batch with its result dropped, as [Run] calls it. *)
Lemma createServices_discard fuel (manifest : Manifest) w :
  bind (createServices fuel manifest) (fun _ => ret tt) w
  = createServices_loop fuel (Services manifest) w.
Proof.
  unfold createServices, bind.
  destruct (createServices_loop fuel (Services manifest) w)
    as [[[] | c | p |] l wf]; cbn; now rewrite ?app_nil_r.
Qed.

(** The manifest stage, one call after the other. *)
Lemma manifestStage_step fuel (name : string) w :
  manifestStage ParseManifest fuel name w =
  let serr := fst (os_Stat name w) in
  let w1 := snd (os_Stat name w) in
  let file := fst (fst (os_Open name w1)) in
  let oerr := snd (fst (os_Open name w1)) in
  let w2 := snd (os_Open name w1) in
  let manifest := fst (fst (ParseManifest file w2)) in
  let perr := snd (fst (ParseManifest file w2)) in
  let w3 := snd (ParseManifest file w2) in
  if os_IsNotExist serr then
    mkRes (Exited 1)
          [OsStat name serr;
           Stdout ("ERROR: The file " ++ name ++ " was not found." ++ nl)] w1
  else
    match oerr with
    | Some _ =>
        mkRes (Exited 1)
              [OsStat name serr;
               Stdout ("Found ManifestFile: " ++ name ++ nl);
               OsOpen name oerr;
               Stdout ("ERROR: Unable to open " ++ name ++ "." ++ nl)] w2
    | None =>
        match perr with
        | Some e =>
            mkRes (Exited 1)
                  [OsStat name serr;
                   Stdout ("Found ManifestFile: " ++ name ++ nl);
                   OsOpen name None;
                   Parsed manifest perr;
                   Stdout ("ERROR: " ++ Error e ++ nl)] w3
        | None =>
            after [OsStat name serr;
                   Stdout ("Found ManifestFile: " ++ name ++ nl);
                   OsOpen name None;
                   Parsed manifest None]
                  (createServices_loop fuel (Services manifest) w3)
        end
    end.
Proof.
  unfold manifestStage. rewrite bind_call. cbn zeta.
  destruct (os_IsNotExist (fst (os_Stat name w))); cbn [negb].
  - now rewrite bind_printf.
  - rewrite bind_printf, bind_call.
    destruct (snd (fst (os_Open name _))) as [oe |].
    + now rewrite bind_printf.
    + rewrite bind_call.
      destruct (snd (fst (ParseManifest _ _))) as [pe |].
      * rewrite bind_assoc, bind_printf. reflexivity.
      * rewrite bind_ret, createServices_discard.
        now rewrite !after_app.
Qed.

(** The manifest stage forwards no push. *)
Lemma manifestStage_no_push fuel (name : string) w :
  Forall (fun ev => is_push ev = false)
         (log (manifestStage ParseManifest fuel name w)).
Proof.
  rewrite manifestStage_step. cbn zeta.
  destruct (os_IsNotExist _); [repeat constructor |].
  destruct (snd (fst (os_Open name _))); [repeat constructor |].
  destruct (snd (fst (ParseManifest _ _))); [repeat constructor |].
  apply after_log_Forall; [repeat constructor |].
  eapply Forall_impl; [| apply createServices_loop_log].
  intros ev. apply orchestration_not_push.
Qed.

(** [Run] behind its command check and its flag scans. *)
Lemma Run_step fuel (command : string) (rest : list string) w (name : string) :
  command = "create-service-push" ->
  manifestFlag (command :: rest) = inl name ->
  Run ParseManifest fuel (command :: rest) w
  = bind (if Nat.ltb 0 (String.length name)
          then manifestStage ParseManifest fuel name
          else ret tt)
         (fun _ => if pushFlag (command :: rest) true
                   then pushStage (command :: rest)
                   else ret tt) w.
Proof.
  intros -> E. unfold Run. rewrite E. reflexivity.
Qed.
End EntryPoint.

Section EntryPointClaims.
Context {World File : Type} {cf : CliConnection World} {os : OS World File}.
Variable ParseManifest : File -> World -> (Manifest * option error) * World.
Implicit Types (w : World) (args : list string).

(** C6: when [--no-service-manifest] stands among the arguments with no
    [--service-manifest] before it, the manifest file name becomes empty and
    the run does nothing of the manifest branch: no file lookup, no open, no
    parse, no query of the control plane and no creation command. *)
Theorem Run_no_service_manifest fuel (pre post : list string) w :
  ~ In "--service-manifest" pre ->
  manifestFlag (pre ++ "--no-service-manifest" :: post) = inl ""
  /\ Forall (fun ev => is_manifest_work ev = false)
            (log (Run ParseManifest fuel
                    (pre ++ "--no-service-manifest" :: post) w)).
Proof.
  intros H.
  assert (E : manifestFlag (pre ++ "--no-service-manifest" :: post) = inl "")
    by now apply scanManifest_reaches_no.
  split; [exact E |].
  destruct (pre ++ "--no-service-manifest" :: post)%list as [| command rest];
    [constructor |].
  destruct (String.eqb_spec command "create-service-push") as [C | C].
  - rewrite (Run_step ParseManifest fuel command rest w "" C E).
    cbn [String.length Nat.ltb Nat.leb]. rewrite bind_ret.
    destruct (pushFlag _ _); [| constructor].
    rewrite pushStage_step. cbn zeta. cbn [log].
    apply Forall_app. split; [repeat constructor |].
    destruct (snd (fst (CliCommand _ w))); repeat constructor.
  - unfold Run. apply String.eqb_neq in C. rewrite C. constructor.
Qed.

(** C7: when [--no-push] stands anywhere among the arguments, the run
    forwards no push command, whatever the other arguments are and however
    the run ends. *)
Theorem Run_no_push fuel args w :
  In "--no-push" args ->
  Forall (fun ev => is_push ev = false) (log (Run ParseManifest fuel args w)).
Proof.
  intros H. destruct args as [| command rest]; [constructor |].
  unfold Run. destruct (negb (command =? "create-service-push")); [constructor |].
  destruct (manifestFlag (command :: rest)) as [name | p]; [| constructor].
  cbn zeta. rewrite (pushFlag_no_push _ true H).
  apply bind_log_Forall; [| intros; constructor].
  destruct (Nat.ltb 0 (String.length name)); [| constructor].
  apply manifestStage_no_push.
Qed.

(** C9: the flag scan reads [args[i+1]] behind the [--service-manifest] it
    stops at; the read is in bounds exactly when an argument follows.  With
    the flag as the last argument the read is at index [len(args)], the scan
    panics with an index out of range, and so does [Run]; and the scan
    panics on no other input. *)
Theorem Run_trailing_service_manifest args :
  (forall pre tail,
      args = (pre ++ "--service-manifest" :: tail)%list ->
      no_manifest_flag pre ->
      manifestFlag args
      = match tail with
        | [] => inr (IndexOutOfRange (length args) (length args))
        | path :: _ => inl path
        end)
  /\ (forall p,
         manifestFlag args = inr p ->
         exists pre,
           args = (pre ++ ["--service-manifest"])%list /\ no_manifest_flag pre)
  /\ (forall fuel w pre,
         args = "create-service-push" :: (pre ++ ["--service-manifest"])%list ->
         no_manifest_flag pre ->
         Run ParseManifest fuel args w
         = mkRes (Panicked (IndexOutOfRange (length args) (length args))) [] w).
Proof.
  assert (A : forall pre tail,
             args = (pre ++ "--service-manifest" :: tail)%list ->
             no_manifest_flag pre ->
             manifestFlag args
             = match tail with
               | [] => inr (IndexOutOfRange (length args) (length args))
               | path :: _ => inl path
               end).
  { intros pre tail E F. unfold manifestFlag.
    pose proof (scanManifest_reaches args [] pre tail
                  "services-manifest.yml" E F) as S.
    cbn [length] in S. now rewrite <- E in S. }
  split; [exact A |]. split.
  - intros p H. apply (scanManifest_panics args args [] _ p eq_refl H).
  - intros fuel w pre E [F1 F2].
    assert (P : manifestFlag args
                = inr (IndexOutOfRange (length args) (length args))).
    { apply (A ("create-service-push" :: pre) [] E).
      split; intros [Hin | Hin]; try discriminate; auto. }
    subst args. unfold Run. rewrite String.eqb_refl. cbn [negb].
    now rewrite P.
Qed.
End EntryPointClaims.

Lemma Run_no_service_manifest_witness :
  manifestFlag (["create-service-push"; "-f"; "app.yml"]
                ++ "--no-service-manifest" :: ["--service-manifest"; "x.yml"])
  = inl ""
  /\ Forall (fun ev => is_manifest_work ev = false)
            (log (Run Sim.parse 5
                    (["create-service-push"; "-f"; "app.yml"]
                     ++ "--no-service-manifest" :: ["--service-manifest"; "x.yml"])
                    Sim.empty)).
Proof.
  apply (Run_no_service_manifest Sim.parse 5
           ["create-service-push"; "-f"; "app.yml"]
           ["--service-manifest"; "x.yml"] Sim.empty).
  simpl. intuition discriminate.
Defined.

Lemma Run_no_push_witness :
  Forall (fun ev => is_push ev = false)
         (log (Run Sim.parse 5 ["create-service-push"; "-f"; "app.yml"; "--no-push"]
                 Sim.empty)).
Proof.
  apply (Run_no_push Sim.parse 5
           ["create-service-push"; "-f"; "app.yml"; "--no-push"] Sim.empty).
  simpl. auto.
Defined.

Lemma Run_trailing_service_manifest_witness :
  Run Sim.parse 5 ["create-service-push"; "--no-push"; "--service-manifest"] Sim.empty
  = mkRes (Panicked (IndexOutOfRange 3 3)) [] Sim.empty.
Proof.
  apply (proj2 (proj2 (Run_trailing_service_manifest Sim.parse
                         ["create-service-push"; "--no-push"; "--service-manifest"]))
           5 Sim.empty ["--no-push"]).
  - reflexivity.
  - split; simpl; intuition discriminate.
Defined.

(** ** How a run ends *)

Lemma orchestration_no_fatal (l : list Event) :
  Forall (fun ev => is_orchestration ev = true) l -> existsb is_fatal l = false.
Proof.
  induction 1 as [| ev l H _ IH]; [reflexivity |].
  cbn. now rewrite (orchestration_not_fatal ev H).
Qed.

Section ExitStatus.
Context {World File : Type} {cf : CliConnection World} {os : OS World File}.
Variable ParseManifest : File -> World -> (Manifest * option error) * World.
Implicit Types (w : World) (args : list string).

(** The manifest stage either meets one of its three fatal answers and
    exits with status 1, whatever the fuel, or meets none and ends as the
    batch over the parsed manifest ends. *)
Lemma manifestStage_cases (name : string) w :
  (forall fuel,
      out (manifestStage ParseManifest fuel name w) = Exited 1
      /\ existsb is_fatal (log (manifestStage ParseManifest fuel name w)) = true)
  \/ (exists services w3, forall fuel,
         out (manifestStage ParseManifest fuel name w)
         = out (createServices_loop fuel services w3)
         /\ existsb is_fatal (log (manifestStage ParseManifest fuel name w))
            = false).
Proof.
  destruct (os_IsNotExist (fst (os_Stat name w))) eqn:Es.
  { left. intros fuel. rewrite manifestStage_step. cbn zeta. rewrite Es.
    cbn. now rewrite Es. }
  destruct (snd (fst (os_Open name (snd (os_Stat name w))))) as [oe |] eqn:Eo.
  { left. intros fuel. rewrite manifestStage_step. cbn zeta. rewrite Es, Eo.
    cbn. now rewrite Es. }
  destruct (snd (fst (ParseManifest
                        (fst (fst (os_Open name (snd (os_Stat name w)))))
                        (snd (os_Open name (snd (os_Stat name w)))))))
    as [pe |] eqn:Ep.
  { left. intros fuel. rewrite manifestStage_step. cbn zeta. rewrite Es, Eo, Ep.
    cbn. now rewrite Es. }
  right. eexists. eexists. intros fuel.
  rewrite manifestStage_step. cbn zeta. rewrite Es, Eo, Ep.
  split; [reflexivity |].
  cbn [after log]. rewrite existsb_app. cbn. rewrite Es. cbn.
  apply orchestration_no_fatal, createServices_loop_log.
Qed.

(** What follows the manifest stage returns and meets nothing fatal. *)
Lemma pushStage_returns args (b : bool) w :
  out ((if b then pushStage args else ret tt) w) = Returned tt
  /\ existsb is_fatal (log ((if b then pushStage args else ret tt) w)) = false.
Proof.
  destruct b; [| now split].
  rewrite pushStage_step. cbn zeta. split; [reflexivity |].
  cbn. now destruct (snd (fst (CliCommand _ w))).
Qed.

(** A run whose flag scan stays in bounds either exits with status 1 on a
    fatal answer of the manifest stage, or meets no fatal answer and ends as
    its batch ends: it returns when the batch does. *)
Lemma Run_cases args w (name : string) :
  args <> [] ->
  manifestFlag args = inl name ->
  (forall fuel,
      out (Run ParseManifest fuel args w) = Exited 1
      /\ existsb is_fatal (log (Run ParseManifest fuel args w)) = true)
  \/ (exists services w3, forall fuel,
         existsb is_fatal (log (Run ParseManifest fuel args w)) = false
         /\ (out (createServices_loop fuel services w3) = Returned tt ->
             out (Run ParseManifest fuel args w) = Returned tt)
         /\ (forall code, out (Run ParseManifest fuel args w) <> Exited code)).
Proof.
  intros N E. destruct args as [| command rest]; [contradiction |].
  destruct (String.eqb_spec command "create-service-push") as [C | C].
  2: { right. exists [], w. intros fuel. unfold Run.
       apply String.eqb_neq in C. rewrite C. cbn. repeat split; discriminate. }
  destruct (Nat.ltb 0 (String.length name)) eqn:L.
  2: { right. exists [], w. intros fuel.
       rewrite (Run_step ParseManifest fuel command rest w name C E), L, bind_ret.
       destruct (pushStage_returns (command :: rest)
                   (pushFlag (command :: rest) true) w) as [O F].
       rewrite O, F. repeat split; discriminate. }
  destruct (manifestStage_cases name w) as [H | (services & w3 & H)].
  - left. intros fuel. destruct (H fuel) as [O F].
    rewrite (Run_step ParseManifest fuel command rest w name C E), L.
    unfold bind. rewrite O. cbn [out log]. now split.
  - right. exists services, w3. intros fuel. destruct (H fuel) as [O F].
    rewrite (Run_step ParseManifest fuel command rest w name C E), L.
    destruct (createServices_loop_out fuel services w3) as [R | R];
      rewrite R in O.
    + rewrite (bind_returned _ _ _ _ _ tt O).
      destruct (pushStage_returns (command :: rest)
                  (pushFlag (command :: rest) true)
                  (final (manifestStage ParseManifest fuel name w))) as [O' F'].
      cbn [after out log]. rewrite existsb_app, F, F', O'.
      repeat split; discriminate.
    + unfold bind at 1 2 3. rewrite O. cbn [out log].
      repeat split; [exact F | rewrite R; discriminate | discriminate].
Qed.

End ExitStatus.


(** On the platform whose provisionings stay in progress the polling loop
    never stops. *)
Lemma stuck_poll_never_ends (name : string) (w : Sim.world) :
  never_ends (fun fuel => poll (cf := Sim.stuck) fuel name) w.
Proof.
  intros fuel. revert w. induction fuel as [| fuel IH]; intros w; [reflexivity |].
  rewrite poll_step. cbn. apply IH.
Qed.


(** ** Further properties of the polling loop *)

Section PollingMore.
Context {World : Type} {cf : CliConnection World}.
Implicit Types (w : World) (name : string).

(** Every status query of the loop is for the name it was given. *)
Lemma poll_log_name fuel name w (ev : Event) :
  In ev (log (poll fuel name w)) ->
  is_poll ev = true ->
  exists service err, ev = ApiGetService name service err.
Proof.
  revert w. induction fuel as [| fuel IH]; intros w; [intros [] |].
  rewrite poll_step. cbn zeta.
  destruct (snd (fst (GetService name w))).
  { cbn. intros [<- | []] _. eauto. }
  assert (Two : forall rest,
             In ev (ApiGetService name (fst (fst (GetService name w))) None
                    :: ProgressNext
                         (Description (LastOperation (fst (fst (GetService name w)))))
                    :: rest) ->
             is_poll ev = true ->
             (exists service err, ev = ApiGetService name service err)
             \/ In ev rest).
  { intros rest [<- | [<- | H]] P; [left; eauto | discriminate | now right]. }
  destruct (State _ =? "succeeded").
  { cbn. intros H P. destruct (Two [] H P) as [? | []]. assumption. }
  destruct (State _ =? "failed").
  { cbn. intros H P. destruct (Two [] H P) as [? | []]. assumption. }
  cbn. intros H P. destruct (Two _ H P) as [? | H']; [assumption |].
  now apply (IH _ H').
Qed.

(** X9: a status query that fails ends the polling loop at once: the loop
    returns the error of the query, after the states polled so far, and
    renders no progress line for the failed query. *)
Theorem poll_query_error name w w1 w2
    (pre : list GetService_Model) (service : GetService_Model)
    (e : error) (fuel : nat) :
  answers name w pre w1 ->
  forallb (fun s => negb (terminal s)) pre = true ->
  GetService name w1 = ((service, Some e), w2) ->
  length pre < fuel ->
  poll fuel name w
  = mkRes (Returned (Some e))
          (poll_events name pre ++ [ApiGetService name service (Some e)]) w2.
Proof.
  intros Ha Hpre E Hf.
  replace fuel with (length pre + S (fuel - S (length pre))) by lia.
  rewrite (poll_through _ _ _ _ Ha Hpre), poll_step, E. reflexivity.
Qed.
End PollingMore.

Lemma poll_query_error_witness :
  poll (cf := Sim.flaky) 5 "db1" Sim.slow
  = mkRes (Returned (Some (mkError "connection reset" false)))
          (poll_events "db1"
             [mkGetService_Model "db1" Sim.in_progress;
              mkGetService_Model "db1" Sim.in_progress]
           ++ [ApiGetService "db1" (mkGetService_Model "" (mkLastOperation "" ""))
                 (Some (mkError "connection reset" false))])
          (Sim.set_script Sim.slow []).
Proof.
  apply (poll_query_error (cf := Sim.flaky) "db1" Sim.slow
           (Sim.set_script Sim.slow []) (Sim.set_script Sim.slow [])
           [mkGetService_Model "db1" Sim.in_progress;
            mkGetService_Model "db1" Sim.in_progress]).
  - repeat (econstructor; [reflexivity |]). constructor.
  - reflexivity.
  - reflexivity.
  - simpl; lia.
Defined.

(** ** Further properties of one creation *)

Section OneServiceMore.
Context {World File : Type} {cf : CliConnection World} {os : OS World File}.
Implicit Types (w : World) (name broker plan JSONParam : string).

(** X8: when the list of services cannot be obtained, [createService]
    returns the error of the listing and does nothing else: no creation
    command, no status query, no line of output. *)
Theorem createService_listing_error fuel name broker plan JSONParam w w'
    (s : list GetServices_Model) (e : error) :
  GetServices w = ((s, Some e), w') ->
  createService fuel name broker plan JSONParam w
  = mkRes (Returned (Some e)) [ApiGetServices s (Some e)] w'.
Proof.
  intros E. rewrite createService_step, E. reflexivity.
Qed.

(** X10: [createService] asks for the status of no other service than
    the one it was given, and only after the creation command for that
    service came back without error. *)
Theorem createService_polls_after_creation fuel name broker plan JSONParam w
    (ev : Event) :
  In ev (log (createService fuel name broker plan JSONParam w)) ->
  is_poll ev = true ->
  (exists service err, ev = ApiGetService name service err)
  /\ exists before output after,
       log (createService fuel name broker plan JSONParam w)
       = (before
          ++ ApiCliCommand (creation_args name broker plan JSONParam) output None
          :: after)%list
       /\ existsb is_poll before = false
       /\ In ev after.
Proof.
  rewrite createService_step. cbn zeta.
  destruct (GetServices w) as [[s e0] w1]. cbn [fst snd].
  destruct e0 as [e0 |].
  { cbn. intros [<- | []]; discriminate. }
  destruct (exists_named name s).
  { cbn. intros [<- | [<- | []]]; discriminate. }
  destruct (CliCommand _ w1) as [[o ce] w2]. cbn [fst snd].
  unfold after. cbn [log app].
  intros [<- | [<- | H]] P; try discriminate.
  rewrite <- app_assoc in H. apply in_app_or in H as [H | H].
  { apply run_lines_stdout in H as [t ->]. discriminate. }
  cbn [app] in H. destruct H as [<- | H]; [discriminate |].
  destruct ce as [ce |]; [destruct H |].
  split; [now apply (poll_log_name fuel name w2) |].
  exists (ApiGetServices s None
          :: Stdout (name ++ " will now be created." ++ nl)
          :: run_lines (creation_args name broker plan JSONParam) w1),
         o, (log (poll fuel name w2)).
  split; [| split; [| exact H]].
  - cbn [app]. now rewrite <- app_assoc.
  - cbn. apply run_lines_no_poll.
Qed.
End OneServiceMore.

Lemma createService_listing_error_witness :
  createService (cf := Sim.offline) 5 "db1" "mysql" "free" "" Sim.empty
  = mkRes (Returned (Some (mkError "connection refused" false)))
          [ApiGetServices [] (Some (mkError "connection refused" false))]
          Sim.empty.
Proof.
  apply (createService_listing_error (cf := Sim.offline) 5 "db1" "mysql" "free" ""
           Sim.empty Sim.empty [] (mkError "connection refused" false)).
  reflexivity.
Defined.

Lemma createService_polls_after_creation_witness :
  (exists service err,
      ApiGetService "db1" (mkGetService_Model "db1" Sim.in_progress) None
      = ApiGetService "db1" service err)
  /\ exists before output after,
       log (createService 5 "db1" "mysql" "free" "" Sim.slow)
       = (before
          ++ ApiCliCommand (creation_args "db1" "mysql" "free" "") output None
          :: after)%list
       /\ existsb is_poll before = false
       /\ In (ApiGetService "db1" (mkGetService_Model "db1" Sim.in_progress) None)
             after.
Proof.
  apply (createService_polls_after_creation 5 "db1" "mysql" "free" "" Sim.slow).
  - simpl. do 4 right. left. reflexivity.
  - reflexivity.
Defined.

(** ** Further properties of the batch *)

Lemma subsequence_nil_l {A : Type} (l : list A) : subsequence [] l.
Proof. induction l; constructor; assumption. Qed.

Lemma actions_app (l1 l2 : list Event) :
  actions (l1 ++ l2) = (actions l1 ++ actions l2)%list.
Proof. apply filter_app. Qed.

Section BatchMore.
Context {World File : Type} {cf : CliConnection World} {os : OS World File}.
Implicit Types (w : World) (services : list ServiceSpec).

(** One turn of the loop, in full, for a creation whose polling ran out
    of fuel. *)
Lemma createServices_loop_stuck_eq fuel (e : ServiceSpec) services w :
  out (createService fuel (ServiceName e) (Broker e) (PlanName e)
         (JSONParameters e) w) = OutOfFuel ->
  createServices_loop fuel (e :: services) w
  = mkRes OutOfFuel
          (log (createService fuel (ServiceName e) (Broker e) (PlanName e)
                  (JSONParameters e) w))
          (final (createService fuel (ServiceName e) (Broker e) (PlanName e)
                    (JSONParameters e) w)).
Proof.
  intros H. cbn [createServices_loop]. unfold bind at 1. now rewrite H.
Qed.

(** A creation of a service that the listing names. *)
Lemma createService_present fuel (e : ServiceSpec) w :
  reports_present e (fst (GetServices w)) ->
  createService fuel (ServiceName e) (Broker e) (PlanName e) (JSONParameters e) w
  = mkRes (Returned None)
          [ApiGetServices (fst (fst (GetServices w))) None;
           Stdout (ServiceName e ++ " already exists." ++ nl)]
          (snd (GetServices w)).
Proof.
  intros [E Hin]. apply exists_named_In in Hin.
  rewrite createService_step. cbn zeta. now rewrite E, Hin.
Qed.

(** The listings of a batch start with the listing of its first entry. *)
Lemma createServices_loop_listings_head fuel (e : ServiceSpec) services w :
  exists rest,
    listings (log (createServices_loop fuel (e :: services) w))
    = fst (GetServices w) :: rest.
Proof.
  destruct (createService_out fuel (ServiceName e) (Broker e) (PlanName e)
              (JSONParameters e) w) as [[err E] | E].
  - rewrite (createServices_loop_cons _ _ _ _ _ E). cbn [after log].
    rewrite !listings_app, createService_listings. eexists. reflexivity.
  - rewrite (createServices_loop_stuck_eq _ _ _ _ E). cbn [log].
    rewrite createService_listings. eexists. reflexivity.
Qed.

(** X11: whatever the platform answers and however far the batch gets,
    the commands it issues are creation commands of manifest entries, each
    entry's at most once, in the order of the manifest: [createServices]
    issues no other command, none twice and none out of order. *)
Theorem createServices_commands_subsequence fuel (manifest : Manifest) w :
  subsequence (cli_commands (log (createServices fuel manifest w)))
              (map creation_of (Services manifest)).
Proof.
  rewrite createServices_step. cbn [log].
  generalize (Services manifest) as services. intros services. revert w.
  induction services as [| e services IH]; intros w; [constructor |].
  assert (C : cli_commands
                (log (createService fuel (ServiceName e) (Broker e) (PlanName e)
                        (JSONParameters e) w)) = []
              \/ cli_commands
                   (log (createService fuel (ServiceName e) (Broker e) (PlanName e)
                           (JSONParameters e) w)) = [creation_of e]).
  { rewrite createService_commands.
    destruct (snd (fst (GetServices w))); [now left |].
    destruct (exists_named _ _); [now left | now right]. }
  destruct (createService_out fuel (ServiceName e) (Broker e) (PlanName e)
              (JSONParameters e) w) as [[err E] | E].
  - rewrite (createServices_loop_cons _ _ _ _ _ E). cbn [after log map].
    destruct (report_no_calls err) as [Rc _]. cbn zeta in Rc.
    rewrite !cli_commands_app, Rc. cbn [app].
    destruct C as [-> | ->]; cbn [app]; constructor; apply IH.
  - rewrite (createServices_loop_stuck_eq _ _ _ _ E). cbn [log map].
    destruct C as [-> | ->]; constructor; apply subsequence_nil_l.
Qed.

(** X12: the batch asks for the list of services once for every entry it
    takes up: at most as many times as the manifest has entries, and
    exactly as many times when it returns. *)
Theorem createServices_listings_count fuel (manifest : Manifest) w :
  length (listings (log (createServices fuel manifest w)))
  <= length (Services manifest)
  /\ (out (createServices fuel manifest w) = Returned None ->
      length (listings (log (createServices fuel manifest w)))
      = length (Services manifest)).
Proof.
  rewrite createServices_step. cbn [log out].
  generalize (Services manifest) as services. intros services. revert w.
  induction services as [| e services IH]; intros w.
  { split; [apply Nat.le_refl | reflexivity]. }
  destruct (createService_out fuel (ServiceName e) (Broker e) (PlanName e)
              (JSONParameters e) w) as [[err E] | E].
  - rewrite (createServices_loop_cons _ _ _ _ _ E). cbn [after log out].
    destruct (report_no_calls err) as [_ Rl]. cbn zeta in Rl.
    rewrite !listings_app, Rl, createService_listings. cbn [app length].
    destruct (IH (final (createService fuel (ServiceName e) (Broker e)
                           (PlanName e) (JSONParameters e) w))) as [L R].
    split; [now apply le_n_S | intros H; f_equal; now apply R].
  - rewrite (createServices_loop_stuck_eq _ _ _ _ E). cbn [log out].
    rewrite createService_listings. cbn [length].
    split; [apply le_n_S, Nat.le_0_l | discriminate].
Qed.

(** X13: when the listing made for each entry names the entry's service,
    the batch creates nothing and waits for nothing: it returns nil with no
    command issued and no status query made, on any fuel. *)
Theorem createServices_all_present fuel (manifest : Manifest) w :
  Forall2 reports_present (Services manifest)
          (listings (log (createServices fuel manifest w))) ->
  out (createServices fuel manifest w) = Returned None
  /\ cli_commands (log (createServices fuel manifest w)) = []
  /\ existsb is_poll (log (createServices fuel manifest w)) = false.
Proof.
  rewrite createServices_step. cbn [log out].
  generalize (Services manifest) as services. intros services. revert w.
  induction services as [| e services IH]; intros w H; [now repeat split |].
  assert (P : reports_present e (fst (GetServices w))).
  { destruct (createServices_loop_listings_head fuel e services w) as [rest R].
    rewrite R in H. now inversion H. }
  pose proof (createService_present fuel e w P) as E.
  assert (O : out (createService fuel (ServiceName e) (Broker e) (PlanName e)
                     (JSONParameters e) w) = Returned None)
    by now rewrite E.
  rewrite (createServices_loop_cons _ _ _ _ _ O) in H |- *.
  rewrite E in H |- *. cbn [after log out final app listings] in H |- *.
  inversion H as [| ? ? ? ? _ H']; subst.
  destruct (IH _ H') as (R1 & R2 & R3).
  destruct (out (createServices_loop fuel services (snd (GetServices w))));
    try discriminate.
  cbn [cli_commands existsb is_poll orb]. now repeat split.
Qed.
End BatchMore.

Lemma createServices_all_present_witness :
  out (createServices 0 Sim.two_services Sim.provisioned) = Returned None
  /\ cli_commands (log (createServices 0 Sim.two_services Sim.provisioned)) = []
  /\ existsb is_poll (log (createServices 0 Sim.two_services Sim.provisioned))
     = false.
Proof.
  apply (createServices_all_present 0 Sim.two_services Sim.provisioned).
  constructor; [split; [reflexivity | simpl; auto] |].
  constructor; [split; [reflexivity | simpl; auto] |].
  constructor.
Defined.

(** ** The orchestrator and the operating system *)

Section OutputOnly.
Context {World File : Type} {cf : CliConnection World}.
Variables os1 os2 : OS World File.
Implicit Types (w : World) (services : list ServiceSpec).

Lemma run_lines_no_action (os : OS World File) (args : list string) w :
  actions (run_lines (os := os) args w) = [].
Proof. unfold run_lines. now destruct (negb _). Qed.

(** One creation does the same under any two systems, output apart. *)
Lemma createService_output_only fuel (name broker plan JSONParam : string) w :
  out (createService (os := os1) fuel name broker plan JSONParam w)
  = out (createService (os := os2) fuel name broker plan JSONParam w)
  /\ final (createService (os := os1) fuel name broker plan JSONParam w)
     = final (createService (os := os2) fuel name broker plan JSONParam w)
  /\ actions (log (createService (os := os1) fuel name broker plan JSONParam w))
     = actions (log (createService (os := os2) fuel name broker plan JSONParam w)).
Proof.
  rewrite !createService_step. cbn zeta.
  destruct (snd (fst (GetServices w))); [now repeat split |].
  destruct (exists_named name _); [now repeat split |].
  repeat split. unfold after. cbn [log].
  rewrite !actions_app. f_equal. f_equal.
  cbn [actions filter is_output negb].
  fold (actions (run_lines (os := os1) (creation_args name broker plan JSONParam)
                   (snd (GetServices w))
                 ++ [ApiCliCommand (creation_args name broker plan JSONParam)
                       (fst (fst (CliCommand (creation_args name broker plan JSONParam)
                                    (snd (GetServices w)))))
                       (snd (fst (CliCommand (creation_args name broker plan JSONParam)
                                    (snd (GetServices w)))))])).
  fold (actions (run_lines (os := os2) (creation_args name broker plan JSONParam)
                   (snd (GetServices w))
                 ++ [ApiCliCommand (creation_args name broker plan JSONParam)
                       (fst (fst (CliCommand (creation_args name broker plan JSONParam)
                                    (snd (GetServices w)))))
                       (snd (fst (CliCommand (creation_args name broker plan JSONParam)
                                    (snd (GetServices w)))))])).
  now rewrite !actions_app, !run_lines_no_action.
Qed.

Lemma createServices_loop_output_only fuel services w :
  out (createServices_loop (os := os1) fuel services w)
  = out (createServices_loop (os := os2) fuel services w)
  /\ final (createServices_loop (os := os1) fuel services w)
     = final (createServices_loop (os := os2) fuel services w)
  /\ actions (log (createServices_loop (os := os1) fuel services w))
     = actions (log (createServices_loop (os := os2) fuel services w)).
Proof.
  revert w. induction services as [| e services IH]; intros w; [now repeat split |].
  destruct (createService_output_only fuel (ServiceName e) (Broker e) (PlanName e)
              (JSONParameters e) w) as (O & F & A).
  destruct (createService_out (os := os1) fuel (ServiceName e) (Broker e)
              (PlanName e) (JSONParameters e) w) as [[err E1] | E1].
  - assert (E2 := E1). rewrite O in E2.
    rewrite (createServices_loop_cons (os := os1) _ _ _ _ _ E1).
    rewrite (createServices_loop_cons (os := os2) _ _ _ _ _ E2).
    cbn [after out log final]. rewrite <- F.
    destruct (IH (final (createService (os := os1) fuel (ServiceName e) (Broker e)
                           (PlanName e) (JSONParameters e) w))) as (O' & F' & A').
    repeat split; [exact O' | exact F' |].
    rewrite !actions_app. now rewrite A, A'.
  - assert (E2 := E1). rewrite O in E2.
    rewrite (createServices_loop_stuck_eq (os := os1) _ _ _ _ E1).
    rewrite (createServices_loop_stuck_eq (os := os2) _ _ _ _ E2).
    cbn [out log final]. now repeat split.
Qed.

(** X14: the orchestrator uses the operating system for nothing but the
    [DEBUG] variable, and [DEBUG] changes nothing but what is printed:
    under any two systems [createServices] ends the same way, leaves the
    platform in the same state and makes the same calls in the same order. *)
Theorem createServices_output_only fuel (manifest : Manifest) w :
  out (createServices (os := os1) fuel manifest w)
  = out (createServices (os := os2) fuel manifest w)
  /\ final (createServices (os := os1) fuel manifest w)
     = final (createServices (os := os2) fuel manifest w)
  /\ actions (log (createServices (os := os1) fuel manifest w))
     = actions (log (createServices (os := os2) fuel manifest w)).
Proof.
  rewrite !createServices_step. cbn [out log final].
  destruct (createServices_loop_output_only fuel (Services manifest) w)
    as (O & F & A).
  now rewrite O, F, A.
Qed.
End OutputOnly.

(** ** Further properties of the flag scans *)

Lemma scanManifest_no_flag (args : list string) (i : nat) (rest : list string)
    (d : string) :
  no_manifest_flag rest -> scanManifest args i rest d = inl d.
Proof.
  revert i. induction rest as [| a rest IH]; intros i [H1 H2]; cbn; [reflexivity |].
  destruct (String.eqb_spec a "--service-manifest") as [-> | _];
    [destruct H1; now left |].
  destruct (String.eqb_spec a "--no-service-manifest") as [-> | _];
    [destruct H2; now left |].
  apply IH. split; intros Hin; [apply H1 | apply H2]; now right.
Qed.

Lemma pushFlag_push (args : list string) :
  ~ In "--no-push" args -> pushFlag args true = true.
Proof.
  induction args as [| a args IH]; cbn; [reflexivity |].
  intros H. destruct (String.eqb_spec a "--no-push") as [-> | _].
  - destruct H. now left.
  - apply IH. intros Hin. apply H. now right.
Qed.

Lemma command_no_manifest_flag (pre : list string) :
  no_manifest_flag pre -> no_manifest_flag ("create-service-push" :: pre).
Proof.
  intros [H1 H2]. split; intros [H | H]; try discriminate; auto.
Qed.

Lemma bind_log_prefix {World A B : Type} (m : M A) (f : A -> M B) (w : World) :
  exists l, log (bind m f w) = (log (m w) ++ l)%list.
Proof.
  unfold bind. destruct (out (m w)); cbn [log].
  - eexists. reflexivity.
  - exists []. now rewrite app_nil_r.
  - exists []. now rewrite app_nil_r.
  - exists []. now rewrite app_nil_r.
Qed.

Section EntryPointMore.
Context {World File : Type} {cf : CliConnection World} {os : OS World File}.
Variable ParseManifest : File -> World -> (Manifest * option error) * World.
Implicit Types (w : World) (args rest : list string).

(** The manifest stage starts with the lookup of the file. *)
Lemma manifestStage_first fuel (name : string) w :
  exists tail,
    log (manifestStage ParseManifest fuel name w)
    = OsStat name (fst (os_Stat name w)) :: tail.
Proof.
  rewrite manifestStage_step. cbn zeta.
  destruct (os_IsNotExist _); [eexists; reflexivity |].
  destruct (snd (fst (os_Open name _))); [eexists; reflexivity |].
  destruct (snd (fst (ParseManifest _ _))); eexists; reflexivity.
Qed.

(** A run with a manifest file name starts with the lookup of that file. *)
Lemma Run_first rest w (name : string) fuel :
  manifestFlag ("create-service-push" :: rest) = inl name ->
  name <> "" ->
  exists tail,
    log (Run ParseManifest fuel ("create-service-push" :: rest) w)
    = OsStat name (fst (os_Stat name w)) :: tail.
Proof.
  intros E N.
  rewrite (Run_step ParseManifest fuel _ rest w name eq_refl E).
  assert (L : Nat.ltb 0 (String.length name) = true)
    by (destruct name; [contradiction | reflexivity]).
  rewrite L.
  destruct (bind_log_prefix (manifestStage ParseManifest fuel name)
              (fun _ => if pushFlag ("create-service-push" :: rest) true
                        then pushStage ("create-service-push" :: rest)
                        else ret tt) w) as [l ->].
  destruct (manifestStage_first fuel name w) as [tail ->].
  eexists. reflexivity.
Qed.

(** A run with the empty manifest file name does nothing of the manifest
    branch. *)
Lemma Run_skips_manifest fuel args w :
  manifestFlag args = inl "" ->
  Forall (fun ev => is_manifest_work ev = false)
         (log (Run ParseManifest fuel args w)).
Proof.
  intros E. destruct args as [| command rest]; [constructor |].
  destruct (String.eqb_spec command "create-service-push") as [C | C].
  - rewrite (Run_step ParseManifest fuel command rest w "" C E).
    cbn [String.length Nat.ltb Nat.leb]. rewrite bind_ret.
    destruct (pushFlag _ _); [| constructor].
    rewrite pushStage_step. cbn zeta. cbn [log].
    apply Forall_app. split; [repeat constructor |].
    destruct (snd (fst (CliCommand _ w))); repeat constructor.
  - unfold Run. apply String.eqb_neq in C. rewrite C. constructor.
Qed.

(** X1: [Run] acts on the command that [GetMetadata] registers and on no
    other: called with any other command name it returns at once, with
    nothing read, printed or sent and the platform left as it was. *)
Theorem Run_dispatch fuel (command : string) rest w :
  ~ In command (map plugin.Name (plugin.Commands GetMetadata)) ->
  Run ParseManifest fuel (command :: rest) w = mkRes (Returned tt) [] w.
Proof.
  cbn. intros H. unfold Run.
  destruct (String.eqb_spec command "create-service-push") as [-> | _].
  - destruct H. now left.
  - reflexivity.
Qed.

(** X2: with no manifest flag among the arguments, the manifest file is
    the default one: the run starts with the lookup of
    [services-manifest.yml]. *)
Theorem Run_default_manifest fuel rest w :
  no_manifest_flag rest ->
  exists tail,
    log (Run ParseManifest fuel ("create-service-push" :: rest) w)
    = OsStat "services-manifest.yml" (fst (os_Stat "services-manifest.yml" w))
      :: tail.
Proof.
  intros H. apply Run_first; [| discriminate].
  apply scanManifest_no_flag. now apply command_no_manifest_flag.
Qed.

(** X3: the argument behind the first [--service-manifest] that no other
    manifest flag precedes is the manifest file, when it is not empty: the
    run starts with the lookup of that file, whatever follows it, later
    manifest flags included. *)
Theorem Run_named_manifest fuel (pre post : list string) (path : string) w :
  no_manifest_flag pre ->
  path <> "" ->
  exists tail,
    log (Run ParseManifest fuel
           ("create-service-push" :: pre ++ "--service-manifest" :: path :: post) w)
    = OsStat path (fst (os_Stat path w)) :: tail.
Proof.
  intros H N. apply Run_first; [| exact N].
  unfold manifestFlag.
  apply (scanManifest_reaches
           ("create-service-push" :: pre ++ "--service-manifest" :: path :: post)
           [] ("create-service-push" :: pre) (path :: post) _ eq_refl).
  now apply command_no_manifest_flag.
Qed.

(** X4: an empty argument behind [--service-manifest] switches the
    manifest off as [--no-service-manifest] does: no file lookup, no open,
    no parse, no query of the control plane and no creation command. *)
Theorem Run_empty_manifest_path fuel (pre post : list string) w :
  no_manifest_flag pre ->
  Forall (fun ev => is_manifest_work ev = false)
         (log (Run ParseManifest fuel
                 ("create-service-push" :: pre ++ "--service-manifest" :: "" :: post)
                 w)).
Proof.
  intros H. apply Run_skips_manifest. unfold manifestFlag.
  apply (scanManifest_reaches
           ("create-service-push" :: pre ++ "--service-manifest" :: "" :: post)
           [] ("create-service-push" :: pre) ("" :: post) _ eq_refl).
  now apply command_no_manifest_flag.
Qed.
End EntryPointMore.

Section EntryPointEnds.
Context {World File : Type} {cf : CliConnection World} {os : OS World File}.
Variable ParseManifest : File -> World -> (Manifest * option error) * World.
Implicit Types (w : World) (args rest : list string).

(** A manifest stage that exits has called the control plane not once. *)
Lemma manifestStage_exit_log fuel (name : string) w (code : Z) :
  out (manifestStage ParseManifest fuel name w) = Exited code ->
  existsb is_api (log (manifestStage ParseManifest fuel name w)) = false.
Proof.
  rewrite manifestStage_step. cbn zeta.
  destruct (os_IsNotExist _); [reflexivity |].
  destruct (snd (fst (os_Open name _))); [reflexivity |].
  destruct (snd (fst (ParseManifest _ _))); [reflexivity |].
  cbn [after out]. intros H.
  destruct (createServices_loop_out fuel
              (Services (fst (fst (ParseManifest
                 (fst (fst (os_Open name (snd (os_Stat name w)))))
                 (snd (os_Open name (snd (os_Stat name w))))))))
              (snd (ParseManifest
                 (fst (fst (os_Open name (snd (os_Stat name w)))))
                 (snd (os_Open name (snd (os_Stat name w))))))) as [R | R];
    rewrite R in H; discriminate.
Qed.

(** X5: a run that exits has sent nothing to the platform: it exits
    before the first query of the control plane, before any service is
    created and without the push, even when the push was asked for. *)
Theorem Run_exit_before_any_call fuel args w (code : Z) :
  out (Run ParseManifest fuel args w) = Exited code ->
  existsb is_api (log (Run ParseManifest fuel args w)) = false.
Proof.
  destruct args as [| command rest]; [discriminate |].
  destruct (String.eqb_spec command "create-service-push") as [C | C].
  2: { unfold Run. apply String.eqb_neq in C. rewrite C. discriminate. }
  destruct (manifestFlag (command :: rest)) as [name | p] eqn:E.
  2: { unfold Run. rewrite E. subst command. rewrite String.eqb_refl.
       discriminate. }
  rewrite (Run_step ParseManifest fuel command rest w name C E).
  destruct (Nat.ltb 0 (String.length name)).
  - unfold bind at 1 2.
    destruct (out (manifestStage ParseManifest fuel name w)) as [u | c | p |] eqn:O;
      cbn [out log]; try discriminate.
    + destruct (pushStage_returns (command :: rest)
                  (pushFlag (command :: rest) true)
                  (final (manifestStage ParseManifest fuel name w))) as [O' _].
      rewrite O'. discriminate.
    + intros _. apply (manifestStage_exit_log fuel name w c O).
  - rewrite bind_ret.
    destruct (pushStage_returns (command :: rest)
                (pushFlag (command :: rest) true) w) as [O' _].
    rewrite O'. discriminate.
Qed.

(** X6: an [os.Stat] that fails with another error than that of a
    missing file counts as a file found: the run says so and goes on to
    open the file. *)
Theorem Run_stat_error fuel rest w w1 (name : string) (e : error) :
  manifestFlag ("create-service-push" :: rest) = inl name ->
  name <> "" ->
  os_Stat name w = (Some e, w1) ->
  not_exist e = false ->
  exists tail,
    log (Run ParseManifest fuel ("create-service-push" :: rest) w)
    = OsStat name (Some e)
      :: Stdout ("Found ManifestFile: " ++ name ++ nl)
      :: OsOpen name (snd (fst (os_Open name w1)))
      :: tail.
Proof.
  intros E N S X.
  rewrite (Run_step ParseManifest fuel _ rest w name eq_refl E).
  assert (L : Nat.ltb 0 (String.length name) = true)
    by (destruct name; [contradiction | reflexivity]).
  rewrite L.
  destruct (bind_log_prefix (manifestStage ParseManifest fuel name)
              (fun _ => if pushFlag ("create-service-push" :: rest) true
                        then pushStage ("create-service-push" :: rest)
                        else ret tt) w) as [l ->].
  rewrite manifestStage_step. cbn zeta. rewrite S. cbn [fst snd os_IsNotExist].
  rewrite X.
  destruct (snd (fst (os_Open name w1))); [eexists; reflexivity |].
  destruct (snd (fst (ParseManifest _ _))); eexists; reflexivity.
Qed.

(** X7: a run without [--no-push] that returns has forwarded the push
    exactly once, as the last thing it sent: the command is [push] followed
    by every argument behind the command name, the plugin's own flags
    included, and what follows it is output only. *)
Theorem Run_forwards_push fuel rest w :
  ~ In "--no-push" rest ->
  out (Run ParseManifest fuel ("create-service-push" :: rest) w) = Returned tt ->
  exists before output err,
    log (Run ParseManifest fuel ("create-service-push" :: rest) w)
    = (before
       ++ [Stdout ("Performing a CF Push with arguments "
                   ++ strings_Join rest " " ++ nl);
           ApiCliCommand ("push" :: rest) output err;
           Stdout (fmt_slice output ++ nl)]
       ++ match err with
          | Some e => [Stdout ("ERROR while pushing: " ++ Error e ++ nl)]
          | None => []
          end)%list
    /\ Forall (fun ev => is_push ev = false) before.
Proof.
  intros NP.
  assert (PF : pushFlag ("create-service-push" :: rest) true = true).
  { apply pushFlag_push. intros [H | H]; [discriminate | contradiction]. }
  destruct (manifestFlag ("create-service-push" :: rest)) as [name | p] eqn:E.
  2: { unfold Run. rewrite E, String.eqb_refl. discriminate. }
  rewrite (Run_step ParseManifest fuel _ rest w name eq_refl E), PF.
  destruct (Nat.ltb 0 (String.length name)).
  - destruct (out (manifestStage ParseManifest fuel name w))
      as [u | c | p |] eqn:O.
    + rewrite (bind_returned _ _ _ _ _ u O). intros _.
      rewrite pushStage_step. cbn zeta. cbn [after log tl].
      exists (log (manifestStage ParseManifest fuel name w)). eexists. eexists.
      split; [reflexivity | apply manifestStage_no_push].
    + unfold bind at 1. rewrite O. discriminate.
    + unfold bind at 1. rewrite O. discriminate.
    + unfold bind at 1. rewrite O. discriminate.
  - rewrite bind_ret. intros _.
    rewrite pushStage_step. cbn zeta. cbn [log tl].
    exists []. eexists. eexists. split; [reflexivity | constructor].
Qed.
End EntryPointEnds.

Lemma Run_dispatch_witness :
  Run Sim.parse 5 ["push"; "--service-manifest"] Sim.empty
  = mkRes (Returned tt) [] Sim.empty.
Proof.
  apply (Run_dispatch Sim.parse 5 "push" ["--service-manifest"] Sim.empty).
  simpl. intuition discriminate.
Defined.

Lemma Run_default_manifest_witness :
  exists tail,
    log (Run Sim.parse 5 ["create-service-push"; "-f"; "app.yml"; "--no-push"]
           Sim.bare)
    = OsStat "services-manifest.yml"
             (fst (os_Stat "services-manifest.yml" Sim.bare))
      :: tail.
Proof.
  apply (Run_default_manifest Sim.parse 5 ["-f"; "app.yml"; "--no-push"] Sim.bare).
  split; simpl; intuition discriminate.
Defined.

Lemma Run_named_manifest_witness :
  exists tail,
    log (Run Sim.parse 5
           ("create-service-push"
            :: ["-f"; "app.yml"]
            ++ "--service-manifest" :: "prod.yml" :: ["--no-service-manifest"])
           Sim.empty)
    = OsStat "prod.yml" (fst (os_Stat "prod.yml" Sim.empty)) :: tail.
Proof.
  apply (Run_named_manifest Sim.parse 5 ["-f"; "app.yml"]
           ["--no-service-manifest"] "prod.yml" Sim.empty).
  - split; simpl; intuition discriminate.
  - discriminate.
Defined.

Lemma Run_empty_manifest_path_witness :
  Forall (fun ev => is_manifest_work ev = false)
         (log (Run Sim.parse 5
                 ("create-service-push"
                  :: ["-f"; "app.yml"] ++ "--service-manifest" :: "" :: ["-i"; "2"])
                 Sim.empty)).
Proof.
  apply (Run_empty_manifest_path Sim.parse 5 ["-f"; "app.yml"] ["-i"; "2"] Sim.empty).
  split; simpl; intuition discriminate.
Defined.

Lemma Run_exit_before_any_call_witness :
  existsb is_api (log (Run Sim.parse 5 ["create-service-push"; "-f"; "app.yml"]
                         Sim.bare)) = false.
Proof.
  apply (Run_exit_before_any_call Sim.parse 5
           ["create-service-push"; "-f"; "app.yml"] Sim.bare 1).
  reflexivity.
Defined.

Lemma Run_stat_error_witness :
  exists tail,
    log (Run (os := Sim.guarded) Sim.parse 5 ["create-service-push"; "--no-push"]
           Sim.empty)
    = OsStat "services-manifest.yml"
             (Some (mkError "stat services-manifest.yml: permission denied" false))
      :: Stdout ("Found ManifestFile: " ++ "services-manifest.yml" ++ nl)
      :: OsOpen "services-manifest.yml"
                (snd (fst (os_Open (OS := Sim.guarded) "services-manifest.yml"
                             Sim.empty)))
      :: tail.
Proof.
  apply (Run_stat_error (os := Sim.guarded) Sim.parse 5 ["--no-push"]
           Sim.empty Sim.empty "services-manifest.yml"
           (mkError "stat services-manifest.yml: permission denied" false)).
  - reflexivity.
  - discriminate.
  - reflexivity.
  - reflexivity.
Defined.

Lemma Run_forwards_push_witness :
  exists before output err,
    log (Run Sim.parse 5
           ("create-service-push"
            :: ["--service-manifest"; "services-manifest.yml"; "-f"; "app.yml"])
           Sim.hostile)
    = (before
       ++ [Stdout ("Performing a CF Push with arguments "
                   ++ strings_Join
                        ["--service-manifest"; "services-manifest.yml"; "-f"; "app.yml"]
                        " " ++ nl);
           ApiCliCommand
             ("push"
              :: ["--service-manifest"; "services-manifest.yml"; "-f"; "app.yml"])
             output err;
           Stdout (fmt_slice output ++ nl)]
       ++ match err with
          | Some e => [Stdout ("ERROR while pushing: " ++ Error e ++ nl)]
          | None => []
          end)%list
    /\ Forall (fun ev => is_push ev = false) before.
Proof.
  apply (Run_forwards_push Sim.parse 5
           ["--service-manifest"; "services-manifest.yml"; "-f"; "app.yml"]
           Sim.hostile).
  - simpl. intuition discriminate.
  - reflexivity.
Defined.
